(** * The World storage contract: payload resolution, error decoding,
      step lookup and the serialization boundary

    A shallow embedding of the TypeScript sources

    - [packages/world-vercel/src/steps.ts]  (remote backend, steps),
    - the shared [filters.ts] and the filesystem [steps] storage,
    - [packages/world/src/serialization.ts] (payload schemas),
    - the remote backend's [createStorage],

    together with the properties the storage contract states about them.

    JavaScript records are finite maps from property names to values; a
    property holding [undefined] and a missing property are distinct maps
    that read the same.  Code that can throw lives in the [result] monad;
    [try { ... } catch { ... }] is [try_catch]. *)

From stdpp Require Import gmap strings list fin_maps pretty.
From Stdlib Require Import ZArith Ascii String Floats.SpecFloat.

Set Warnings "-register-all".
Local Open Scope string_scope.

(* ===================================================================== *)
(** * JavaScript values                                                   *)
(* ===================================================================== *)

(** A number is an IEEE-754 binary64, [spec_float] at precision 53 and
    maximal exponent 1024; a [Uint8Array] is its list of bytes. *)
Inductive value : Type :=
  | JUndefined
  | JNull
  | JBool (b : bool)
  | JNumber (x : spec_float)
  | JString (s : string)
  | JBytes (bs : list Byte.byte)
  | JArray (vs : list value)
  | JObject (o : gmap string value).

Inductive jstype : Type :=
  | TUndefined | TObject | TBoolean | TNumber | TString.

(** [typeof v]; note [typeof null === 'object']. *)
Definition typeof (v : value) : jstype :=
  match v with
  | JUndefined => TUndefined
  | JNull => TObject
  | JBool _ => TBoolean
  | JNumber _ => TNumber
  | JString _ => TString
  | JBytes _ | JArray _ | JObject _ => TObject
  end.

Definition is_object_type (v : value) : bool :=
  match typeof v with TObject => true | _ => false end.

Definition is_undefined (v : value) : bool :=
  match v with JUndefined => true | _ => false end.

Definition is_null (v : value) : bool :=
  match v with JNull => true | _ => false end.

Definition is_string (v : value) : bool :=
  match v with JString _ => true | _ => false end.

(** [ToBoolean]: the falsy values are [undefined], [null], [false],
    [+0], [-0], [NaN] and the empty string. *)
Definition truthy (v : value) : bool :=
  match v with
  | JUndefined | JNull => false
  | JBool b => b
  | JNumber (S754_zero _) | JNumber S754_nan => false
  | JNumber _ => true
  | JString "" => false
  | JString _ => true
  | JBytes _ | JArray _ | JObject _ => true
  end.

(** [a ?? b] *)
Definition nullish_coalesce (a b : value) : value :=
  match a with
  | JUndefined | JNull => b
  | _ => a
  end.

Infix "??" := nullish_coalesce (at level 45, right associativity).

(** Reading property [k] of a record: a missing property reads as
    [undefined]. *)
Definition field (o : gmap string value) (k : string) : value :=
  default JUndefined (o !! k).

(* ===================================================================== *)
(** * Exceptions                                                          *)
(* ===================================================================== *)

Inductive exn : Type :=
  | TypeError
  | SyntaxError
  | Error (message : string).

Inductive result (A : Type) : Type :=
  | Ok (a : A)
  | Throw (e : exn).

Arguments Ok {A} a.
Arguments Throw {A} e.

#[global] Instance result_ret : MRet result := @Ok.
#[global] Instance result_bind : MBind result :=
  λ A B f r, match r with Ok a => f a | Throw e => Throw e end.

(** [try { body } catch { handler }] *)
Definition try_catch {A} (body handler : result A) : result A :=
  match body with
  | Ok a => Ok a
  | Throw _ => handler
  end.

(** [v.k] for a property name [k] that is not an index, not [length] and
    not defined on a built-in prototype (here: [message], [stack],
    [code]).  Reading a property of [undefined] or [null] throws. *)
Definition getProp (v : value) (k : string) : result value :=
  match v with
  | JUndefined | JNull => Throw TypeError
  | JObject o => Ok (field o k)
  | _ => Ok JUndefined
  end.

(** The two built-ins of the JavaScript runtime that [deserializeStep]
    calls: [JSON.parse] and the [String] conversion. *)
Class JsRuntime : Type := {
  JSON_parse : string → result value;
  String_ : value → result string;
}.

Inductive ResolveData : Type := RNone | RAll.

(* ===================================================================== *)
(** * Shared projections: filters.ts                                      *)
(* ===================================================================== *)

Module Filters.

(** [{ ...run, input: undefined, output: undefined }] or [run] *)
Definition filterRunData (run : gmap string value) (resolveData : ResolveData)
    : gmap string value :=
  match resolveData with
  | RNone => <["output" := JUndefined]> (<["input" := JUndefined]> run)
  | RAll => run
  end.

Definition filterStepData (step : gmap string value) (resolveData : ResolveData)
    : gmap string value :=
  match resolveData with
  | RNone => <["output" := JUndefined]> (<["input" := JUndefined]> step)
  | RAll => step
  end.

(** [const { eventData: _eventData, ...rest } = event; return rest] *)
Definition filterEventData (event : gmap string value) (resolveData : ResolveData)
    : gmap string value :=
  match resolveData with
  | RNone => delete "eventData" event
  | RAll => event
  end.

Definition filterHookData (hook : gmap string value) (resolveData : ResolveData)
    : gmap string value :=
  match resolveData with
  | RNone => delete "metadata" hook
  | RAll => hook
  end.

End Filters.

(* ===================================================================== *)
(** * Remote backend: world-vercel/src/steps.ts                           *)
(* ===================================================================== *)

Module WorldVercel.
Section Steps.
Context `{!JsRuntime}.

(** The object literal [{ message, stack, code }]. *)
Definition errorRecord (message stack code : value) : gmap string value :=
  <["code" := code]> (<["stack" := stack]> {["message" := message]}).

(** The body of the [try] block, up to the assignment to [result.error]:
    parse the string and build the error record.  The test
    [typeof parsed === 'object' && parsed.message !== undefined] reads
    [parsed.message] only when its first conjunct holds. *)
Definition parseErrorString (errorSource : string) : result (gmap string value) :=
  parsed ← JSON_parse errorSource;
  hasMessage ← (if is_object_type parsed
                then m ← getProp parsed "message"; mret (negb (is_undefined m))
                else mret false);
  if (hasMessage : bool) then
    message ← getProp parsed "message";
    stack ← getProp parsed "stack";
    code ← getProp parsed "code";
    mret (errorRecord message stack code)
  else
    s ← String_ parsed;
    mret {["message" := JString s]}.

(** [deserializeStep(wireStep)]: the wire step is a record (it passed the
    wire schema); [const { error, errorRef, ...rest } = wireStep]. *)
Definition deserializeStep (wireStep : gmap string value)
    : result (gmap string value) :=
  let error := field wireStep "error" in
  let errorRef := field wireStep "errorRef" in
  let rest := delete "errorRef" (delete "error" wireStep) in
  let errorSource := error ?? errorRef in
  if truthy errorSource then
    match errorSource with
    | JString s =>
        try_catch
          (e ← parseErrorString s; mret (<["error" := JObject e]> rest))
          (mret (<["error" := JObject {["message" := JString s]}]> rest))
    | _ =>
        if is_object_type errorSource && negb (is_null errorSource) then
          message ← getProp errorSource "message";
          stack ← getProp errorSource "stack";
          code ← getProp errorSource "code";
          mret (<["error" :=
                   JObject (errorRecord (message ?? JString "Unknown error")
                                        stack code)]> rest)
        else mret rest
    end
  else mret rest.

(** [filterStepData(step, resolveData)] of the remote backend. *)
Definition filterStepData (step : gmap string value) (resolveData : ResolveData)
    : result (gmap string value) :=
  match resolveData with
  | RNone =>
      let rest := delete "outputRef" (delete "inputRef" step) in
      deserialized ← deserializeStep rest;
      mret (<["output" := JUndefined]> (<["input" := JUndefined]> deserialized))
  | RAll => deserializeStep step
  end.

End Steps.
End WorldVercel.

(* ===================================================================== *)
(** * A reference JavaScript runtime                                      *)
(* ===================================================================== *)

(** [JSON.parse] (ECMA-404 grammar, ECMA-262 semantics) and the [String]
    conversion, as functions that compute.  The properties of
    [deserializeStep] below hold for every [JsRuntime]; this instance
    evaluates them on concrete wire steps.  A JavaScript string is
    modelled by its UTF-8 bytes. *)
Module JsRef.

Definition prec : Z := 53.
Definition emax : Z := 1024.

(** ** Numbers: decimal to binary64 and back *)

(** The binary64 nearest to [m * 10^e] for [0 <= m] (ties to even).  For
    [e < 0] the quotient is computed to at least 57 bits and the lost
    part is recorded in one extra low bit, which rounding only sees as
    "inexact". *)
Definition decimal_to_binary64 (neg : bool) (m e : Z) : spec_float :=
  let sgn := if neg then (-1)%Z else 1%Z in
  if (m =? 0)%Z then S754_zero neg
  else if (0 <=? e)%Z then binary_normalize prec emax (sgn * (m * 10 ^ e)) 0 false
  else
    let d := (10 ^ (- e))%Z in
    let k := Z.max 0 (58 + Z.log2 d - Z.log2 m) in
    let n := (m * 2 ^ k)%Z in
    let q := (n / d)%Z in
    let sticky := if (n mod d =? 0)%Z then 0%Z else 1%Z in
    binary_normalize prec emax (sgn * (2 * q + sticky)) (- k - 1) false.

Definition spec_float_eqb (x y : spec_float) : bool :=
  match x, y with
  | S754_zero a, S754_zero b | S754_infinity a, S754_infinity b => Bool.eqb a b
  | S754_nan, S754_nan => true
  | S754_finite a m e, S754_finite b m' e' =>
      Bool.eqb a b && (m =? m')%positive && (e =? e')%Z
  | _, _ => false
  end.

(** [x = num / den] exactly, for the finite positive [m * 2^e]. *)
Definition ratio_of (m : positive) (e : Z) : Z * Z :=
  if (0 <=? e)%Z then (Z.pos m * 2 ^ e, 1)%Z else (Z.pos m, 2 ^ (- e))%Z.

(** [num / den < 10^n] *)
Definition below_pow10 (num den n : Z) : bool :=
  if (0 <=? n)%Z then (num <? den * 10 ^ n)%Z else (num * 10 ^ (- n) <? den)%Z.

(** The least [n], searched upwards from [n], with [num / den < 10^n]. *)
Fixpoint magnitude (fuel : nat) (num den n : Z) : Z :=
  match fuel with
  | O => n
  | S fuel => if below_pow10 num den n then n else magnitude fuel num den (n + 1)
  end.

(** The [k]-digit decimals next to [x = num/den], which lies in
    [[10^(n-1), 10^n)]: with [q = n - k], the candidates are
    [lo = floor (x / 10^q)] and [lo + 1].  Returns the one that reads
    back as [x], the nearer one (the even one on a tie) if both do. *)
Definition candidate (x : spec_float) (num den n k : Z) : option (Z * Z) :=
  let q := (n - k)%Z in
  let '(a, b) := if (0 <=? q)%Z then (num, den * 10 ^ q)%Z
                 else (num * 10 ^ (- q), den)%Z in
  let lo := (a / b)%Z in
  let r := (a mod b)%Z in
  let ok_lo := spec_float_eqb (decimal_to_binary64 false lo q) x in
  let ok_hi := spec_float_eqb (decimal_to_binary64 false (lo + 1) q) x in
  let pick_lo := (2 * r <? b)%Z || ((2 * r =? b)%Z && Z.even lo) in
  match ok_lo, ok_hi with
  | true, true => Some (if pick_lo then lo else (lo + 1)%Z, q)
  | true, false => Some (lo, q)
  | false, true => Some ((lo + 1)%Z, q)
  | false, false => None
  end.

(** The shortest digit string: the first [k] with a candidate. *)
Fixpoint shortest (fuel : nat) (x : spec_float) (num den n k : Z) : Z * Z :=
  match fuel with
  | O => (0, 0)%Z
  | S fuel =>
      match candidate x num den n k with
      | Some sq => sq
      | None => shortest fuel x num den n (k + 1)
      end
  end.

Fixpoint zeros (n : nat) : string :=
  match n with O => "" | S n => String "0" (zeros n) end.

(** Drop the trailing zeros of [s], counting them into [q]. *)
Fixpoint strip_zeros (fuel : nat) (s q : Z) : Z * Z :=
  match fuel with
  | O => (s, q)
  | S fuel => if (s mod 10 =? 0)%Z then strip_zeros fuel (s / 10)%Z (q + 1)%Z
              else (s, q)
  end.

(** [Number::toString] of a finite positive number with digits [ds]
    (there are [k] of them) and decimal point position [n]. *)
Definition format_decimal (ds : string) (n : Z) : string :=
  let k := Z.of_nat (String.length ds) in
  if ((k <=? n) && (n <=? 21))%Z then ds +:+ zeros (Z.to_nat (n - k))
  else if ((0 <? n) && (n <=? 21))%Z then
    substring 0 (Z.to_nat n) ds +:+ "." +:+
    substring (Z.to_nat n) (Z.to_nat (k - n)) ds
  else if ((-6 <? n) && (n <=? 0))%Z then "0." +:+ zeros (Z.to_nat (- n)) +:+ ds
  else
    let e := (n - 1)%Z in
    let es := (if (e <? 0)%Z then "-" else "+") +:+ pretty (Z.abs e) in
    if (k =? 1)%Z then ds +:+ "e" +:+ es
    else substring 0 1 ds +:+ "." +:+ substring 1 (Z.to_nat (k - 1)) ds
         +:+ "e" +:+ es.

(** [Number::toString(x)], radix 10. *)
Definition number_to_string (x : spec_float) : string :=
  match x with
  | S754_nan => "NaN"
  | S754_zero _ => "0"
  | S754_infinity neg => if neg then "-Infinity" else "Infinity"
  | S754_finite neg m e =>
      let '(num, den) := ratio_of m e in
      let n := magnitude 700 num den (-330) in
      let '(s, q) := shortest 17 (S754_finite false m e) num den n 1 in
      let '(s, q) := strip_zeros 17 s q in
      let ds := pretty s in
      (if neg then "-" else "") +:+
      format_decimal ds (q + Z.of_nat (String.length ds))
  end.

(** ** JSON text *)

Definition is_ws (c : ascii) : bool :=
  match c with
  | " "%char | "009"%char | "010"%char | "013"%char => true
  | _ => false
  end.

Fixpoint skip_ws (s : string) : string :=
  match s with
  | String c rest => if is_ws c then skip_ws rest else s
  | EmptyString => s
  end.

Definition digit_val (c : ascii) : option Z :=
  let n := Z.of_N (N_of_ascii c) in
  if ((48 <=? n) && (n <=? 57))%Z then Some (n - 48)%Z else None.

Definition hex_val (c : ascii) : option Z :=
  let n := Z.of_N (N_of_ascii c) in
  if ((48 <=? n) && (n <=? 57))%Z then Some (n - 48)%Z
  else if ((65 <=? n) && (n <=? 70))%Z then Some (n - 55)%Z
  else if ((97 <=? n) && (n <=? 102))%Z then Some (n - 87)%Z
  else None.

(** The digits at the front of [s]: their value on top of [acc], how many
    there are on top of [n], and the rest of the text. *)
Fixpoint lex_digits (acc n : Z) (s : string) : Z * Z * string :=
  match s with
  | String c rest =>
      match digit_val c with
      | Some d => lex_digits (10 * acc + d) (n + 1) rest
      | None => (acc, n, s)
      end
  | EmptyString => (acc, n, s)
  end.

(** [int]: a single [0], or a nonzero digit followed by digits. *)
Definition lex_int (s : string) : result (Z * string) :=
  match s with
  | String "0" rest => Ok (0%Z, rest)
  | _ => let '(m, n, rest) := lex_digits 0 0 s in
         if (n =? 0)%Z then Throw SyntaxError else Ok (m, rest)
  end.

(** [frac]: on top of the mantissa [m], returns the new mantissa and the
    number of fraction digits. *)
Definition lex_frac (m : Z) (s : string) : result (Z * Z * string) :=
  match s with
  | String "." rest =>
      let '(m', n, rest') := lex_digits m 0 rest in
      if (n =? 0)%Z then Throw SyntaxError else Ok (m', n, rest')
  | _ => Ok (m, 0%Z, s)
  end.

Definition lex_exp_digits (neg : bool) (s : string) : result (Z * string) :=
  let '(x, n, rest) := lex_digits 0 0 s in
  if (n =? 0)%Z then Throw SyntaxError
  else Ok (if neg then (- x)%Z else x, rest).

Definition lex_exp (s : string) : result (Z * string) :=
  match s with
  | String "e" rest | String "E" rest =>
      match rest with
      | String "+" rest' => lex_exp_digits false rest'
      | String "-" rest' => lex_exp_digits true rest'
      | _ => lex_exp_digits false rest
      end
  | _ => Ok (0%Z, s)
  end.

Definition lex_number (s : string) : result (spec_float * string) :=
  let '(neg, s1) := match s with
                    | String "-" rest => (true, rest)
                    | _ => (false, s)
                    end in
  '(m, s2) ← lex_int s1;
  '(m', nfrac, s3) ← lex_frac m s2;
  '(x, s4) ← lex_exp s3;
  mret (decimal_to_binary64 neg m' (x - nfrac), s4).

(** UTF-8 (generalized to lone surrogates) of a code point. *)
Definition byte_char (n : Z) : ascii := ascii_of_N (Z.to_N n).

Definition utf8 (cp : Z) : string :=
  if (cp <? 128)%Z then String (byte_char cp) ""
  else if (cp <? 2048)%Z then
    String (byte_char (192 + cp / 64))
      (String (byte_char (128 + cp mod 64)) "")
  else if (cp <? 65536)%Z then
    String (byte_char (224 + cp / 4096))
      (String (byte_char (128 + (cp / 64) mod 64))
        (String (byte_char (128 + cp mod 64)) ""))
  else
    String (byte_char (240 + cp / 262144))
      (String (byte_char (128 + (cp / 4096) mod 64))
        (String (byte_char (128 + (cp / 64) mod 64))
          (String (byte_char (128 + cp mod 64)) ""))).

Definition hex4 (a b c d : ascii) : option Z :=
  x ← hex_val a; y ← hex_val b; z ← hex_val c; w ← hex_val d;
  Some (((x * 16 + y) * 16 + z) * 16 + w)%Z.

Definition is_high_surrogate (u : Z) : bool := ((55296 <=? u) && (u <=? 56319))%Z.
Definition is_low_surrogate (u : Z) : bool := ((56320 <=? u) && (u <=? 57343))%Z.

Definition simple_escape (c : ascii) : option ascii :=
  match c with
  | "034"%char => Some "034"%char
  | "\"%char => Some "\"%char
  | "/"%char => Some "/"%char
  | "b"%char => Some "008"%char
  | "f"%char => Some "012"%char
  | "n"%char => Some "010"%char
  | "r"%char => Some "013"%char
  | "t"%char => Some "009"%char
  | _ => None
  end.

(** The characters of a string literal after its opening quote, up to
    and including the closing quote. *)
Fixpoint lex_string (s : string) : result (string * string) :=
  match s with
  | EmptyString => Throw SyntaxError
  | String "034" rest => Ok ("", rest)
  | String "\" (String "u" (String a (String b (String c (String d rest))))) =>
      match hex4 a b c d with
      | None => Throw SyntaxError
      | Some u =>
          let single := '(str, rest') ← lex_string rest;
                         mret (utf8 u +:+ str, rest') in
          match rest with
          | String "\" (String "u"
              (String a' (String b' (String c' (String d' rest2))))) =>
              match hex4 a' b' c' d' with
              | Some l =>
                  if is_high_surrogate u && is_low_surrogate l then
                    '(str, rest') ← lex_string rest2;
                    mret (utf8 (65536 + (u - 55296) * 1024 + (l - 56320))
                            +:+ str, rest')
                  else single
              | None => single
              end
          | _ => single
          end
      end
  | String "\" (String e rest) =>
      match simple_escape e with
      | Some c => '(str, rest') ← lex_string rest; mret (String c str, rest')
      | None => Throw SyntaxError
      end
  | String c rest =>
      if (N_of_ascii c <? 32)%N then Throw SyntaxError
      else '(str, rest') ← lex_string rest; mret (String c str, rest')
  end.

(** [pre] is the start of [s]: the rest of [s]. *)
Fixpoint strip_prefix (pre s : string) : option string :=
  match pre, s with
  | EmptyString, _ => Some s
  | String a pre', String b s' => if Ascii.eqb a b then strip_prefix pre' s' else None
  | String _ _, EmptyString => None
  end.

(** One JSON value at the front of the text; [fuel] bounds the number of
    nested calls. *)
Fixpoint parse_value (fuel : nat) (s : string) : result (value * string) :=
  match fuel with
  | O => Throw SyntaxError
  | S fuel =>
      match skip_ws s with
      | String "{" rest =>
          match skip_ws rest with
          | String "}" rest' => Ok (JObject ∅, rest')
          | _ => parse_members fuel ∅ rest
          end
      | String "[" rest =>
          match skip_ws rest with
          | String "]" rest' => Ok (JArray [], rest')
          | _ => parse_elements fuel [] rest
          end
      | String "034" rest =>
          '(str, rest') ← lex_string rest; mret (JString str, rest')
      | s' =>
          match strip_prefix "null" s', strip_prefix "true" s',
                strip_prefix "false" s' with
          | Some rest, _, _ => Ok (JNull, rest)
          | _, Some rest, _ => Ok (JBool true, rest)
          | _, _, Some rest => Ok (JBool false, rest)
          | None, None, None =>
              '(x, rest) ← lex_number s'; mret (JNumber x, rest)
          end
      end
  end
with parse_members (fuel : nat) (acc : gmap string value) (s : string)
    : result (value * string) :=
  match fuel with
  | O => Throw SyntaxError
  | S fuel =>
      match skip_ws s with
      | String "034" rest =>
          '(k, rest1) ← lex_string rest;
          match skip_ws rest1 with
          | String ":" rest2 =>
              '(v, rest3) ← parse_value fuel rest2;
              match skip_ws rest3 with
              | String "," rest4 => parse_members fuel (<[k := v]> acc) rest4
              | String "}" rest4 => Ok (JObject (<[k := v]> acc), rest4)
              | _ => Throw SyntaxError
              end
          | _ => Throw SyntaxError
          end
      | _ => Throw SyntaxError
      end
  end
with parse_elements (fuel : nat) (acc : list value) (s : string)
    : result (value * string) :=
  match fuel with
  | O => Throw SyntaxError
  | S fuel =>
      '(v, rest) ← parse_value fuel s;
      match skip_ws rest with
      | String "," rest' => parse_elements fuel (acc ++ [v]) rest'
      | String "]" rest' => Ok (JArray (acc ++ [v]), rest')
      | _ => Throw SyntaxError
      end
  end.

(** [JSON.parse(text)]: one value, surrounded by white space only.  Every
    nested call but the first of an array consumes a character, so twice
    the length of the text is fuel enough. *)
Definition parse (text : string) : result value :=
  '(v, rest) ← parse_value (2 * String.length text + 2) text;
  match skip_ws rest with
  | EmptyString => Ok v
  | _ => Throw SyntaxError
  end.

(** ** The [String] conversion *)

Fixpoint join (sep : string) (l : list string) : string :=
  match l with
  | [] => ""
  | [x] => x
  | x :: l' => x +:+ sep +:+ join sep l'
  end.

(** [ToString].  A record converts through [Object.prototype.toString]
    unless it has a [toString] property of its own: no value here is
    callable, so then [OrdinaryToPrimitive] finds no method that returns
    a primitive and throws.  Arrays and typed arrays convert through
    [join], where [undefined] and [null] elements give the empty
    string. *)
Fixpoint to_string (v : value) : result string :=
  match v with
  | JUndefined => Ok "undefined"
  | JNull => Ok "null"
  | JBool b => Ok (if b then "true" else "false")
  | JNumber x => Ok (number_to_string x)
  | JString s => Ok s
  | JBytes bs => Ok (join "," ((λ b, pretty (Byte.to_N b)) <$> bs))
  | JArray vs =>
      strs ← (fix elements (l : list value) : result (list string) :=
                match l with
                | [] => Ok []
                | JUndefined :: l' | JNull :: l' =>
                    strs ← elements l'; mret ("" :: strs)
                | v :: l' =>
                    str ← to_string v; strs ← elements l'; mret (str :: strs)
                end) vs;
      mret (join "," strs)
  | JObject o =>
      match o !! "toString" with
      | None => Ok "[object Object]"
      | Some _ => Throw TypeError
      end
  end.

#[global] Instance runtime : JsRuntime :=
  {| JSON_parse := parse; String_ := to_string |}.

End JsRef.

(* ===================================================================== *)
(** * Filesystem backend: the steps storage                               *)
(* ===================================================================== *)

Module WorldLocal.

(** [s.endsWith(suffix)]: some tail of [s] is [suffix]. *)
Fixpoint endsWith (s suffix : string) : bool :=
  String.eqb s suffix ||
  match s with
  | String _ s' => endsWith s' suffix
  | EmptyString => false
  end.

(** [s.split('-')[0]]: the part of [s] before its first dash, all of [s]
    if it has none. *)
Fixpoint split_head (s : string) : string :=
  match s with
  | EmptyString => ""
  | String c s' => if Ascii.eqb c "-" then "" else String c (split_head s')
  end.

(** [!runId]: the run id is [undefined] or the empty string. *)
Definition no_id (runId : option string) : bool :=
  match runId with
  | None | Some "" => true
  | Some _ => false
  end.

(** Modelled from the spec: the helpers [listJSONFiles] and [readJSON] of
    the backend's [fs.js] are not among the sources.  The [steps]
    directory holds one JSON file per step, named
    [{runId}-{stepId}.json]; it is modelled by its entries in listing
    order, each the file name without [.json] and the record the file
    decodes to under [StepSchema].  [listJSONFiles] gives the names,
    [readJSON] the record of the file with the given name and [null]
    when there is none (which is what [steps.get] tests for).  Ids are
    taken not to contain path separators. *)
Definition listJSONFiles (dir : list (string * gmap string value)) : list string :=
  dir.*1.

Definition readJSON (dir : list (string * gmap string value)) (fileId : string)
    : option (gmap string value) :=
  snd <$> List.find (λ entry, String.eqb entry.1 fileId) dir.

Record GetStepParams : Type := { resolveData : option ResolveData }.

Section StepsStorage.

(** The constant of the backend's [config.js], not among the sources. *)
Variable DEFAULT_RESOLVE_DATA_OPTION : ResolveData.

(** [params?.resolveData ?? DEFAULT_RESOLVE_DATA_OPTION] *)
Definition resolveData_of (params : option GetStepParams) : ResolveData :=
  default DEFAULT_RESOLVE_DATA_OPTION (params ≫= resolveData).

(** The reverse lookup of [steps.get]: the run id taken from the first
    listed file whose name ends with [-{stepId}]. *)
Definition findRunId (dir : list (string * gmap string value)) (stepId : string)
    : result string :=
  let fileIds := listJSONFiles dir in
  match List.find (λ fileId, endsWith fileId ("-" +:+ stepId)) fileIds with
  | None | Some "" => Throw (Error ("Step " +:+ stepId +:+ " not found"))
  | Some fileId => Ok (split_head fileId)
  end.

(** [createStepsStorage(basedir).get(runId, stepId, params)] over the
    [steps] directory of [basedir]. *)
Definition get (dir : list (string * gmap string value))
    (runId : option string) (stepId : string) (params : option GetStepParams)
    : result (gmap string value) :=
  runId ← (if no_id runId then findRunId dir stepId
           else Ok (default "" runId));
  let compositeKey := runId +:+ "-" +:+ stepId in
  match readJSON dir compositeKey with
  | None =>
      Throw (Error ("Step " +:+ stepId +:+ " in run " +:+ runId +:+ " not found"))
  | Some step => Ok (Filters.filterStepData step (resolveData_of params))
  end.

End StepsStorage.
End WorldLocal.

(* ===================================================================== *)
(** * The serialization boundary: world/src/serialization.ts              *)
(* ===================================================================== *)

(** The schemas are built from three combinators of the zod library,
    [z.instanceof], [z.any] and [z.union]; [safeParse] gives them their
    meaning. *)
Module Zod.

(** The constructors [instanceof] is asked about. *)
Inductive ctor : Type := Uint8Array.

Definition instance_of (v : value) (c : ctor) : bool :=
  match c, v with
  | Uint8Array, JBytes _ => true
  | Uint8Array, _ => false
  end.

Inductive ZodType : Type :=
  | z_instanceof (c : ctor)
  | z_any
  | z_union (options : list ZodType).

Inductive SafeParseResult : Type :=
  | Success (data : value)
  | Failure.

(** A union validates with its first option that does. *)
Fixpoint safeParse (schema : ZodType) (v : value) : SafeParseResult :=
  match schema with
  | z_instanceof c => if instance_of v c then Success v else Failure
  | z_any => Success v
  | z_union options =>
      (fix first (l : list ZodType) : SafeParseResult :=
         match l with
         | [] => Failure
         | option :: l' =>
             match safeParse option v with
             | Success data => Success data
             | Failure => first l'
             end
         end) options
  end.

End Zod.

Module Serialization.
Import Zod.

Definition BinarySerializedDataSchema : ZodType := z_instanceof Uint8Array.

Definition LegacySerializedDataSchemaV1 : ZodType := z_any.

Definition SerializedDataSchema : ZodType :=
  z_union [BinarySerializedDataSchema; LegacySerializedDataSchemaV1].

End Serialization.

(* ===================================================================== *)
(** * Remote backend: createStorage                                       *)
(* ===================================================================== *)

Module Remote.
Section Storage.

(** The state of the remote service and the client configuration. *)
Context {World APIConfig : Type}.

(** An [async] function: it runs against the service, may change it, and
    resolves or rejects. *)
Definition Async (A : Type) : Type := World → result A * World.

(** The functions [createStorage] imports from the sibling modules. *)
Variable getWorkflowRun : string → value → option APIConfig → Async value.
Variable listWorkflowRuns : value → option APIConfig → Async value.
Variable getStep : option string → string → value → option APIConfig → Async value.
Variable listWorkflowRunSteps : value → option APIConfig → Async value.
Variable createWorkflowRunEvent :
  string → value → value → option APIConfig → Async value.
Variable getWorkflowRunEvents : value → option APIConfig → Async value.
Variable getHook : string → value → option APIConfig → Async value.
Variable getHookByToken : string → option APIConfig → Async value.
Variable listHooks : value → option APIConfig → Async value.

Record RunsStorage : Type := {
  runs_get : string → value → Async value;
  runs_list : value → Async value;
}.

Record StepsStorage : Type := {
  steps_get : option string → string → value → Async value;
  steps_list : value → Async value;
}.

Record EventsStorage : Type := {
  events_create : string → value → value → Async value;
  events_list : value → Async value;
  events_listByCorrelationId : value → Async value;
}.

Record HooksStorage : Type := {
  hooks_get : string → value → Async value;
  hooks_getByToken : string → Async value;
  hooks_list : value → Async value;
}.

Record Storage : Type := {
  runs : RunsStorage;
  steps : StepsStorage;
  events : EventsStorage;
  hooks : HooksStorage;
}.

Definition createStorage (config : option APIConfig) : Storage :=
  {| runs :=
       {| runs_get := λ id params, getWorkflowRun id params config;
          runs_list := λ params, listWorkflowRuns params config |};
     steps :=
       {| steps_get := λ runId stepId params, getStep runId stepId params config;
          steps_list := λ params, listWorkflowRunSteps params config |};
     events :=
       {| events_create := λ runId data params,
            createWorkflowRunEvent runId data params config;
          events_list := λ params, getWorkflowRunEvents params config;
          events_listByCorrelationId := λ params,
            getWorkflowRunEvents params config |};
     hooks :=
       {| hooks_get := λ hookId params, getHook hookId params config;
          hooks_getByToken := λ token, getHookByToken token config;
          hooks_list := λ params, listHooks params config |} |}.

End Storage.
End Remote.

(* ===================================================================== *)
(** * Shapes of decoded entities                                          *)
(* ===================================================================== *)

(** What a caller can observe of a record: its properties that are not
    [undefined], nested records likewise.  Two records have the same shape
    when these agree; [{ a: 1, b: undefined }] and [{ a: 1 }] do. *)
Fixpoint prune (v : value) : value :=
  match v with
  | JArray vs => JArray (prune <$> vs)
  | JObject o =>
      JObject (omap (λ x, if is_undefined x then None else Some (prune x)) o)
  | _ => v
  end.

Definition prune_record (o : gmap string value) : gmap string value :=
  omap (λ x, if is_undefined x then None else Some (prune x)) o.

Definition is_optional_string (v : value) : bool :=
  match v with
  | JUndefined | JString _ => true
  | _ => false
  end.

(** [{ message: string, stack?: string, code?: string }] and no other
    property that can be read. *)
Definition is_StructuredError (v : value) : bool :=
  match v with
  | JObject e =>
      is_string (field e "message")
      && is_optional_string (field e "stack")
      && is_optional_string (field e "code")
      && bool_decide (map_Forall
           (λ k x, k ∈ ["message"; "stack"; "code"] ∨ is_undefined x = true) e)
  | _ => false
  end.

(** A decoded [Step]: no field of the wire format ([inputRef],
    [outputRef], [errorRef]) is left, and [error] is absent or a
    [StructuredError]. *)
Definition is_decoded_step (step : gmap string value) : bool :=
  is_undefined (field step "inputRef")
  && is_undefined (field step "outputRef")
  && is_undefined (field step "errorRef")
  && (is_undefined (field step "error")
      || is_StructuredError (field step "error")).

(** The run id has no dash. *)
Fixpoint dash_free (s : string) : bool :=
  match s with
  | EmptyString => true
  | String c s' => negb (Ascii.eqb c "-") && dash_free s'
  end.

Definition is_nullish (v : value) : bool :=
  match v with
  | JUndefined | JNull => true
  | _ => false
  end.

(* ===================================================================== *)
(** * Sample wire steps, entities and directories                         *)
(* ===================================================================== *)

Module Samples.

Definition quote : string := String "034" "".

Definition payload : value := JBytes [Byte.x01; Byte.x02; Byte.x03].

(** [{ stepId: 's1', error: 'inline failure',
       errorRef: { message: 'resolved failure' } }] *)
Definition wire_both : gmap string value :=
  {[ "stepId" := JString "s1";
     "error" := JString "inline failure";
     "errorRef" := JObject {["message" := JString "resolved failure"]} ]}.

(** The JSON text [{"message":42}] *)
Definition json_message_42 : string :=
  "{" +:+ quote +:+ "message" +:+ quote +:+ ":42}".

(** The JSON text [{"message":"x","stack":"at f"}] *)
Definition json_error : string :=
  "{" +:+ quote +:+ "message" +:+ quote +:+ ":" +:+ quote +:+ "x" +:+ quote
  +:+ "," +:+ quote +:+ "stack" +:+ quote +:+ ":" +:+ quote +:+ "at f" +:+ quote
  +:+ "}".

Definition forty_two : spec_float := S754_finite false 5910974510923776 (-47).

Definition wire_with (error : value) : gmap string value :=
  {[ "stepId" := JString "s1"; "input" := payload; "error" := error ]}.

Definition wire_rest : gmap string value :=
  {[ "stepId" := JString "s1"; "input" := payload ]}.

(** A decoded step of run [r1]. *)
Definition step_s1 : gmap string value :=
  {[ "runId" := JString "r1"; "stepId" := JString "s1";
     "input" := payload; "output" := payload;
     "error" := JObject {["message" := JString "failed"]} ]}.

Definition step_s2 : gmap string value :=
  {[ "runId" := JString "r2"; "stepId" := JString "s2"; "input" := payload ]}.

(** A step of the run [a-b]. *)
Definition step_ab : gmap string value :=
  {[ "runId" := JString "a-b"; "stepId" := JString "s1"; "input" := payload ]}.

Definition entity : gmap string value :=
  {[ "runId" := JString "r1"; "input" := payload; "output" := payload;
     "eventData" := payload; "metadata" := payload ]}.

(** The [steps] directory with [r1-s1.json] and [r2-s2.json]. *)
Definition steps_dir : list (string * gmap string value) :=
  [("r1-s1", step_s1); ("r2-s2", step_s2)].

(** The [steps] directory with [a-b-s1.json] only. *)
Definition steps_dir_dash : list (string * gmap string value) :=
  [("a-b-s1", step_ab)].

End Samples.

(* ===================================================================== *)
(** * Pages and query strings                                             *)
(* ===================================================================== *)

(** [PaginatedResponse<T>]: the [data] array and the other properties of
    the page (its cursor and the like), which the code only copies. *)
Record PaginatedResponse (A : Type) : Type := {
  data : list A;
  page_info : gmap string value;
}.

Arguments data {A} _.
Arguments page_info {A} _.

Inductive SortOrder : Type := asc | desc.

Definition SortOrder_string (o : SortOrder) : string :=
  match o with asc => "asc" | desc => "desc" end.

(** [pagination]: [{ cursor?: string, limit?: number, sortOrder?: ... }] *)
Record PaginationOptions : Type := {
  cursor : option string;
  limit : option spec_float;
  sortOrder : option SortOrder;
}.

(** The platform's [URLSearchParams], as the list of its name-value
    pairs, with the [application/x-www-form-urlencoded] serializer and
    parser of the URL standard.  Strings are UTF-8 bytes, a surrogate
    code unit that is not part of a pair being the three bytes [ED],
    [A0]..[BF], [80]..[BF]; the pairs hold USVStrings, which have none. *)
Module URLSearchParams.

(** After [ED]: the second and third byte of a surrogate code unit. *)
Definition is_surrogate_second (b : ascii) : bool :=
  ((160 <=? N_of_ascii b) && (N_of_ascii b <=? 191))%N.

Definition is_continuation (b : ascii) : bool :=
  ((128 <=? N_of_ascii b) && (N_of_ascii b <=? 191))%N.

(** The code unit [ED b1 b2] stands for. *)
Definition surrogate_unit (b1 b2 : ascii) : Z :=
  (53248 + (Z.of_N (N_of_ascii b1) - 128) * 64 + (Z.of_N (N_of_ascii b2) - 128))%Z.

(** U+FFFD, the replacement character. *)
Definition replacement : string := String "239" (String "191" (String "189" "")).

(** The conversion of a string to a USVString, which every argument of
    [URLSearchParams] goes through: a high surrogate followed by a low
    one is their code point, any other surrogate becomes U+FFFD. *)
Fixpoint to_usv (s : string) : string :=
  match s with
  | EmptyString => ""
  | String c rest =>
      match rest with
      | String b1 (String b2 rest2) =>
          if Ascii.eqb c "237" && is_surrogate_second b1 && is_continuation b2
          then
            match rest2 with
            | String c' (String b1' (String b2' rest3)) =>
                if JsRef.is_high_surrogate (surrogate_unit b1 b2)
                   && Ascii.eqb c' "237" && is_surrogate_second b1'
                   && is_continuation b2'
                   && JsRef.is_low_surrogate (surrogate_unit b1' b2')
                then JsRef.utf8 (65536 + (surrogate_unit b1 b2 - 55296) * 1024
                                 + (surrogate_unit b1' b2' - 56320))
                     +:+ to_usv rest3
                else replacement +:+ to_usv rest2
            | _ => replacement +:+ to_usv rest2
            end
          else String c (to_usv rest)
      | _ => String c (to_usv rest)
      end
  end.

(** Every byte is below 128. *)
Fixpoint is_ascii (s : string) : bool :=
  match s with
  | EmptyString => true
  | String c s' => (N_of_ascii c <? 128)%N && is_ascii s'
  end.

(** Bytes that the serializer leaves as they are: ASCII letters and
    digits, and [*], [-], [.], [_]. *)
Definition is_unreserved (c : ascii) : bool :=
  let n := N_of_ascii c in
  ((48 <=? n) && (n <=? 57) || (65 <=? n) && (n <=? 90)
   || (97 <=? n) && (n <=? 122)
   || (n =? 42) || (n =? 45) || (n =? 46) || (n =? 95))%N.

(** The upper-case hexadecimal digit of [n < 16]. *)
Definition hex_digit (n : N) : ascii :=
  ascii_of_N (if (n <? 10)%N then 48 + n else 55 + n).

Definition hex_value (c : ascii) : option N :=
  let n := N_of_ascii c in
  if ((48 <=? n) && (n <=? 57))%N then Some (n - 48)%N
  else if ((65 <=? n) && (n <=? 70))%N then Some (n - 55)%N
  else if ((97 <=? n) && (n <=? 102))%N then Some (n - 87)%N
  else None.

Definition encode_byte (c : ascii) : string :=
  if is_unreserved c then String c ""
  else if Ascii.eqb c " " then "+"
  else String "%" (String (hex_digit (N_of_ascii c / 16))
                     (String (hex_digit (N_of_ascii c mod 16)) "")).

Fixpoint encode (s : string) : string :=
  match s with
  | EmptyString => ""
  | String c s' => encode_byte c +:+ encode s'
  end.

(** The first pair of that name gets the value and the others of that
    name go; without one, the pair is appended. *)
Fixpoint set_pair (params : list (string * string)) (name value : string)
    : list (string * string) :=
  match params with
  | [] => [(name, value)]
  | (k, v) :: params' =>
      if String.eqb k name
      then (name, value) :: List.filter (λ kv, negb (String.eqb kv.1 name)) params'
      else (k, v) :: set_pair params' name value
  end.

(** [params.set(name, value)]: both arguments are converted to
    USVStrings, then the pair is set. *)
Definition set (params : list (string * string)) (name value : string)
    : list (string * string) :=
  set_pair params (to_usv name) (to_usv value).

(** [params.toString()], of pairs that hold USVStrings. *)
Definition toString (params : list (string * string)) : string :=
  JsRef.join "&" ((λ kv, encode kv.1 +:+ "=" +:+ encode kv.2) <$> params).

(** Percent-decoding, after [+] has become a space: a [%] that two
    hexadecimal digits do not follow stays. *)
Fixpoint decode (s : string) : string :=
  match s with
  | EmptyString => ""
  | String c rest =>
      if Ascii.eqb c "+" then String " " (decode rest)
      else if Ascii.eqb c "%" then
        match rest with
        | String a (String b rest') =>
            match hex_value a, hex_value b with
            | Some x, Some y => String (ascii_of_N (16 * x + y)) (decode rest')
            | _, _ => String c (decode rest)
            end
        | _ => String c (decode rest)
        end
      else String c (decode rest)
  end.

(** [s] cut at every [sep]. *)
Fixpoint split_on (sep : ascii) (s : string) : list string :=
  match s with
  | EmptyString => [""]
  | String c s' =>
      if Ascii.eqb c sep then "" :: split_on sep s'
      else match split_on sep s' with
           | [] => [String c ""]
           | piece :: pieces => String c piece :: pieces
           end
  end.

(** [s] cut at its first [=]: the name and the value, the value empty
    when there is no [=]. *)
Fixpoint split_pair (s : string) : string * string :=
  match s with
  | EmptyString => ("", "")
  | String c s' =>
      if Ascii.eqb c "=" then ("", s')
      else let '(name, value) := split_pair s' in (String c name, value)
  end.

(** The parser: the non-empty pieces between [&], each cut at its first
    [=] and decoded.  The decoded bytes are read as UTF-8, which they
    are in every query string that [toString] writes. *)
Definition parse (query : string) : list (string * string) :=
  (λ piece, let '(name, value) := split_pair piece in (decode name, decode value))
  <$> List.filter (λ piece, negb (String.eqb piece "")) (split_on "&" query).

End URLSearchParams.

(* ===================================================================== *)
(** * Remote backend: the requests of world-vercel/src/steps.ts           *)
(* ===================================================================== *)

Module VercelSteps.

Inductive RemoteRefBehavior : Type := lazy | resolve.

Definition RemoteRefBehavior_string (b : RemoteRefBehavior) : string :=
  match b with lazy => "lazy" | resolve => "resolve" end.

(** [resolveData === 'none' ? 'lazy' : 'resolve'] *)
Definition remoteRefBehavior_of (resolveData : ResolveData) : RemoteRefBehavior :=
  match resolveData with RNone => lazy | RAll => resolve end.

(** Which schema a request is made with. *)
Inductive WireSchema : Type :=
  | StepWire
  | StepWireWithRefs
  | Paginated (item : WireSchema).

(** What [makeRequest<T>] resolves with, [T] being the type of the
    schema: a record for a step, a page of them for a list. *)
Fixpoint Response (schema : WireSchema) : Type :=
  match schema with
  | StepWire | StepWireWithRefs => gmap string value
  | Paginated item => PaginatedResponse (Response item)
  end.

Record ListWorkflowRunStepsParams : Type := {
  runId : string;
  pagination : option PaginationOptions;
  resolveData : option ResolveData;
}.

Section Requests.
Context {World APIConfig : Type}.
Context `{!JsRuntime}.

Record Request : Type := {
  endpoint : string;
  method : string;
  body : option value;
  config : option APIConfig;
}.

(** [await]: run [m], and [f] on what it resolves with; a rejection
    passes on. *)
Definition await {A B} (m : @Remote.Async World A) (f : A → @Remote.Async World B)
    : @Remote.Async World B :=
  λ w, match m w with
       | (Ok a, w') => f a w'
       | (Throw e, w') => (Throw e, w')
       end.

(** Returning from an [async] function, or throwing in it. *)
Definition settle {A} (r : result A) : @Remote.Async World A := λ w, (r, w).

(** The parts of [utils.js], not among the sources. *)
Variable DEFAULT_RESOLVE_DATA_OPTION : ResolveData.
Variable makeRequest : ∀ schema : WireSchema, Request → @Remote.Async World (Response schema).
Variable serializeError : value → value.

(** [queryString ? `?${queryString}` : ''] *)
Definition query_suffix (queryString : string) : string :=
  match queryString with
  | EmptyString => ""
  | _ => "?" +:+ queryString
  end.

(** The search parameters of [listWorkflowRunSteps]: [cursor], [limit]
    and [sortOrder] when they are truthy, then [remoteRefBehavior]. *)
Definition listSearchParams (pagination : option PaginationOptions)
    (remoteRefBehavior : RemoteRefBehavior) : list (string * string) :=
  let searchParams := [] in
  let searchParams :=
    match pagination ≫= cursor with
    | Some c => if truthy (JString c)
                then URLSearchParams.set searchParams "cursor" c
                else searchParams
    | None => searchParams
    end in
  let searchParams :=
    match pagination ≫= limit with
    | Some l => if truthy (JNumber l)
                then URLSearchParams.set searchParams "limit"
                       (JsRef.number_to_string l)
                else searchParams
    | None => searchParams
    end in
  let searchParams :=
    match pagination ≫= sortOrder with
    | Some o => URLSearchParams.set searchParams "sortOrder" (SortOrder_string o)
    | None => searchParams
    end in
  URLSearchParams.set searchParams "remoteRefBehavior"
    (RemoteRefBehavior_string remoteRefBehavior).

Definition listEndpoint (params : ListWorkflowRunStepsParams) : string :=
  let resolveData := default DEFAULT_RESOLVE_DATA_OPTION (resolveData params) in
  let queryString :=
    URLSearchParams.toString
      (listSearchParams (pagination params) (remoteRefBehavior_of resolveData)) in
  "/v2/runs/" +:+ runId params +:+ "/steps" +:+ query_suffix queryString.

(** [filterStepData] on every step of [response.data]; the first one
    that throws ends the [map]. *)
Fixpoint filterSteps (steps : list (gmap string value)) (resolveData : ResolveData)
    : result (list (gmap string value)) :=
  match steps with
  | [] => Ok []
  | step :: steps' =>
      filtered ← WorldVercel.filterStepData step resolveData;
      rest ← filterSteps steps' resolveData;
      mret (filtered :: rest)
  end.

Definition listWorkflowRunSteps (params : ListWorkflowRunStepsParams)
    (config : option APIConfig)
    : @Remote.Async World (PaginatedResponse (gmap string value)) :=
  let resolveData := default DEFAULT_RESOLVE_DATA_OPTION (resolveData params) in
  let request :=
    {| endpoint := listEndpoint params; method := "GET"; body := None;
       config := config |} in
  await
    (match remoteRefBehavior_of resolveData with
     | lazy => makeRequest (Paginated StepWireWithRefs) request
     | resolve => makeRequest (Paginated StepWire) request
     end)
    (λ response,
       settle (steps ← filterSteps (data response) resolveData;
               mret {| data := steps; page_info := page_info response |})).

Definition createStep (runId : string) (data : value) (config : option APIConfig)
    : @Remote.Async World (gmap string value) :=
  await
    (makeRequest StepWire
       {| endpoint := "/v2/runs/" +:+ runId +:+ "/steps"; method := "POST";
          body := Some data; config := config |})
    (λ step, settle (WorldVercel.deserializeStep step)).

Definition updateStep (runId stepId : string) (data : value)
    (config : option APIConfig) : @Remote.Async World (gmap string value) :=
  let serialized := serializeError data in
  await
    (makeRequest StepWire
       {| endpoint := "/v2/runs/" +:+ runId +:+ "/steps/" +:+ stepId;
          method := "PUT"; body := Some serialized; config := config |})
    (λ step, settle (WorldVercel.deserializeStep step)).

(** The endpoint of [getStep]: under the run when [runId] is truthy. *)
Definition getStepEndpoint (runId : option string) (stepId : string)
    (remoteRefBehavior : RemoteRefBehavior) : string :=
  let searchParams :=
    URLSearchParams.set [] "remoteRefBehavior"
      (RemoteRefBehavior_string remoteRefBehavior) in
  let queryString := URLSearchParams.toString searchParams in
  if WorldLocal.no_id runId
  then "/v2/steps/" +:+ stepId +:+ query_suffix queryString
  else "/v2/runs/" +:+ default "" runId +:+ "/steps/" +:+ stepId
       +:+ query_suffix queryString.

Definition getStep (runId : option string) (stepId : string)
    (params : option WorldLocal.GetStepParams) (config : option APIConfig)
    : @Remote.Async World (gmap string value) :=
  let resolveData :=
    default DEFAULT_RESOLVE_DATA_OPTION (params ≫= WorldLocal.resolveData) in
  let remoteRefBehavior := remoteRefBehavior_of resolveData in
  let request :=
    {| endpoint := getStepEndpoint runId stepId remoteRefBehavior;
       method := "GET"; body := None; config := config |} in
  await
    (match remoteRefBehavior with
     | lazy => makeRequest StepWireWithRefs request
     | resolve => makeRequest StepWire request
     end)
    (λ step, settle (WorldVercel.filterStepData step resolveData)).

End Requests.
End VercelSteps.

(* ===================================================================== *)
(** * Filesystem backend: steps.list                                      *)
(* ===================================================================== *)

Module WorldLocalList.

(** The [params] of [steps.list], an [any] in the source. *)
Record ListParams : Type := {
  runId : option string;
  pagination : option PaginationOptions;
  resolveData : option ResolveData;
}.

(** The argument of [paginatedFileSystemQuery]. *)
Record Query : Type := {
  directory : string;
  filePrefix : string;
  query_sortOrder : SortOrder;
  query_limit : option spec_float;
  query_cursor : option string;
  getCreatedAt : gmap string value → value;
  getId : gmap string value → value;
}.

Section StepsList.
Context {FS : Type}.

(** The constant of [config.js], the helpers of [fs.js] and
    [helpers.js], and [path.join]: not among the sources. *)
Variable DEFAULT_RESOLVE_DATA_OPTION : ResolveData.
Variable path_join : string → string → string.
Variable getObjectCreatedAt : string → gmap string value → value.
Variable paginatedFileSystemQuery :
  Query → @Remote.Async FS (PaginatedResponse (gmap string value)).

(** [`${params.runId}-`]: an [undefined] run id prints as [undefined]. *)
Definition filePrefix_of (runId : option string) : string :=
  default "undefined" runId +:+ "-".

Definition listQuery (basedir : string) (params : ListParams) : Query :=
  {| directory := path_join basedir "steps";
     filePrefix := filePrefix_of (runId params);
     query_sortOrder := default desc (pagination params ≫= sortOrder);
     query_limit := pagination params ≫= limit;
     query_cursor := pagination params ≫= cursor;
     getCreatedAt := getObjectCreatedAt "step";
     getId := λ step, field step "stepId" |}.

(** [createStepsStorage(basedir).list(params)] *)
Definition steps_list (basedir : string) (params : ListParams)
    : @Remote.Async FS (PaginatedResponse (gmap string value)) :=
  let resolveData := default DEFAULT_RESOLVE_DATA_OPTION (resolveData params) in
  VercelSteps.await (paginatedFileSystemQuery (listQuery basedir params))
    (λ result,
       match resolveData with
       | RNone =>
           VercelSteps.settle
             (Ok {| data := (λ step, <["output" := JUndefined]>
                                       (<["input" := JUndefined]> step))
                            <$> data result;
                    page_info := page_info result |})
       | RAll => VercelSteps.settle (Ok result)
       end).

End StepsList.
End WorldLocalList.

(* ===================================================================== *)
(** * The serialization boundary before the legacy form                   *)
(* ===================================================================== *)

(** The other [serialization.ts] among the sources: one schema, for the
    binary form only. *)
Module SerializationBinary.

Definition SerializedDataSchema : Zod.ZodType := Zod.z_instanceof Zod.Uint8Array.

End SerializationBinary.

(* ===================================================================== *)
(** * The wire schemas of world-vercel/src/steps.ts                       *)
(* ===================================================================== *)

(** The zod combinators the wire schemas are built from, with the values
    each accepts.  [z.object] accepts an object that is not [null] and
    not an array, when every field of the shape accepts the property of
    that name; the names here are no index and not [length]. *)
Module WireSchemas.

Inductive Schema : Type :=
  | z_string
  | z_any
  | z_instanceof (c : Zod.ctor)
  | z_optional (inner : Schema)
  | z_union (options : list Schema)
  | z_object (shape : list (string * Schema)).

Fixpoint accepts (schema : Schema) (v : value) : bool :=
  match schema with
  | z_string => is_string v
  | z_any => true
  | z_instanceof c => Zod.instance_of v c
  | z_optional inner => is_undefined v || accepts inner v
  | z_union options =>
      (fix any (l : list Schema) : bool :=
         match l with
         | [] => false
         | option :: l' => accepts option v || any l'
         end) options
  | z_object shape =>
      match v with
      | JObject o =>
          (fix all (l : list (string * Schema)) : bool :=
             match l with
             | [] => true
             | (k, s) :: l' => accepts s (field o k) && all l'
             end) shape
      | JBytes _ =>
          (fix all (l : list (string * Schema)) : bool :=
             match l with
             | [] => true
             | (k, s) :: l' => accepts s JUndefined && all l'
             end) shape
      | _ => false
      end
  end.

Definition has_key (keys : list string) (k : string) : bool :=
  existsb (String.eqb k) keys.

(** [schema.omit({ k: true, ... })] on the shape. *)
Definition omit (shape : list (string * Schema)) (keys : list string)
    : list (string * Schema) :=
  List.filter (λ kv, negb (has_key keys kv.1)) shape.

(** [schema.extend({ ... })] on the shape: the new fields replace the
    fields of their names. *)
Definition extend (shape augmentation : list (string * Schema))
    : list (string * Schema) :=
  omit shape (augmentation.*1) ++ augmentation.

Section Wire.

(** The shape of [StepSchema], of [@workflow/world]: not among the
    sources. *)
Variable StepSchema : list (string * Schema).

(** The [error] of a wire step: a string, or
    [{ message: string, stack?: string, code?: string }]; optional. *)
Definition error_schema : Schema :=
  z_optional
    (z_union [ z_string;
               z_object [ ("message", z_string);
                          ("stack", z_optional z_string);
                          ("code", z_optional z_string) ] ]).

Definition StepWireSchema_shape : list (string * Schema) :=
  extend (omit StepSchema ["error"])
    [ ("error", error_schema); ("errorRef", z_optional z_any) ].

Definition StepWireSchema : Schema := z_object StepWireSchema_shape.

Definition StepWireWithRefsSchema_shape : list (string * Schema) :=
  extend (omit StepWireSchema_shape ["input"; "output"])
    [ ("inputRef", z_optional z_any);
      ("outputRef", z_optional z_any);
      ("input", z_optional (z_instanceof Zod.Uint8Array));
      ("output", z_optional (z_instanceof Zod.Uint8Array)) ].

Definition StepWireWithRefsSchema : Schema := z_object StepWireWithRefsSchema_shape.

End Wire.
End WireSchemas.

(** An id that [path.join] leaves as it is inside the file name
    [{runId}-{stepId}.json]: it has no path separator ([/], and [\] for
    Windows) and no NUL, which no path may have. *)
Fixpoint plain_id (s : string) : bool :=
  match s with
  | EmptyString => true
  | String c s' =>
      negb (Ascii.eqb c "/" || Ascii.eqb c "\" || Ascii.eqb c "000")
      && plain_id s'
  end.

(** The part of [s] after its last dash, all of [s] if it has none. *)
Fixpoint last_segment (s : string) : string :=
  match s with
  | EmptyString => ""
  | String c s' =>
      if Ascii.eqb c "-" then last_segment s'
      else if dash_free s' then s else last_segment s'
  end.

(* ===================================================================== *)
(** * Properties                                                          *)
(* ===================================================================== *)

(** ** Records *)

Lemma field_insert_eq (o : gmap string value) k v : field (<[k := v]> o) k = v.
Proof. unfold field. by rewrite lookup_insert_eq. Qed.

Lemma field_insert_ne (o : gmap string value) k k' v :
  k ≠ k' → field (<[k := v]> o) k' = field o k'.
Proof. intros. unfold field. by rewrite lookup_insert_ne. Qed.

Lemma field_delete_eq (o : gmap string value) k : field (delete k o) k = JUndefined.
Proof. unfold field. by rewrite lookup_delete_eq. Qed.

Lemma field_delete_ne (o : gmap string value) k k' :
  k ≠ k' → field (delete k o) k' = field o k'.
Proof. intros. unfold field. by rewrite lookup_delete_ne. Qed.

Lemma is_undefined_true v : is_undefined v = true ↔ v = JUndefined.
Proof. destruct v; naive_solver. Qed.

(** ** [deserializeStep] *)

Section DeserializeStep.
Context `{!JsRuntime}.

(** The error record [deserializeStep] assigns, if it assigns one: the
    result is [rest], or [rest] with an [error] record. *)
Lemma deserializeStep_cases (w : gmap string value) :
  let rest := delete "errorRef" (delete "error" w) in
  WorldVercel.deserializeStep w = Ok rest ∨
  ∃ e, WorldVercel.deserializeStep w = Ok (<["error" := JObject e]> rest).
Proof.
  intros rest. unfold WorldVercel.deserializeStep. fold rest.
  destruct (truthy _); [| by left].
  destruct (field w "error" ?? field w "errorRef") as [| |b|x|s|bs|vs|o] eqn:Hsrc;
    simpl; try by left.
  - right. unfold try_catch.
    destruct (WorldVercel.parseErrorString s) as [e|]; simpl; eauto.
  - right. eauto.
  - right. eauto.
  - right. eauto.
Qed.

Lemma deserializeStep_total (w : gmap string value) :
  ∃ r, WorldVercel.deserializeStep w = Ok r.
Proof. destruct (deserializeStep_cases w) as [?|[e ?]]; eauto. Qed.

(** Only [error] and [errorRef] change. *)
Lemma deserializeStep_frame (w r : gmap string value) k :
  WorldVercel.deserializeStep w = Ok r → k ≠ "error" → k ≠ "errorRef" →
  r !! k = w !! k.
Proof.
  intros Hr Hk1 Hk2. destruct (deserializeStep_cases w) as [Hw|[e Hw]];
    rewrite Hw in Hr; injection Hr as <-.
  - by rewrite !lookup_delete_ne.
  - rewrite lookup_insert_ne, !lookup_delete_ne; done.
Qed.

End DeserializeStep.

(** ** The [resolveData] projection *)

Section Projection.
Context `{!JsRuntime}.

Lemma filterStepData_none (step : gmap string value) :
  ∃ d, WorldVercel.deserializeStep (delete "outputRef" (delete "inputRef" step)) = Ok d
       ∧ WorldVercel.filterStepData step RNone
         = Ok (<["output" := JUndefined]> (<["input" := JUndefined]> d)).
Proof.
  destruct (deserializeStep_total (delete "outputRef" (delete "inputRef" step)))
    as [d Hd].
  exists d. split; [done |]. unfold WorldVercel.filterStepData. by rewrite Hd.
Qed.

(** C1. For every run, step, event and hook, whatever payload it holds:
    the projection for [resolveData = 'none'] reads [undefined] at the
    bulky fields ([input] and [output] of runs and steps, by the shared
    filters and by the remote backend's [filterStepData]; [eventData] of
    events; [metadata] of hooks), neither the stored payload nor an empty
    placeholder; the projection for ['all'] has these fields exactly as
    the entity has them. *)
Theorem resolveData_none_absent_all_present (entity : gmap string value) :
  ( field (Filters.filterRunData entity RNone) "input" = JUndefined
    ∧ field (Filters.filterRunData entity RNone) "output" = JUndefined
    ∧ field (Filters.filterStepData entity RNone) "input" = JUndefined
    ∧ field (Filters.filterStepData entity RNone) "output" = JUndefined
    ∧ field (Filters.filterEventData entity RNone) "eventData" = JUndefined
    ∧ field (Filters.filterHookData entity RNone) "metadata" = JUndefined
    ∧ ∃ r, WorldVercel.filterStepData entity RNone = Ok r
           ∧ field r "input" = JUndefined ∧ field r "output" = JUndefined )
  ∧
  ( Filters.filterRunData entity RAll !! "input" = entity !! "input"
    ∧ Filters.filterRunData entity RAll !! "output" = entity !! "output"
    ∧ Filters.filterStepData entity RAll !! "input" = entity !! "input"
    ∧ Filters.filterStepData entity RAll !! "output" = entity !! "output"
    ∧ Filters.filterEventData entity RAll !! "eventData" = entity !! "eventData"
    ∧ Filters.filterHookData entity RAll !! "metadata" = entity !! "metadata"
    ∧ ∃ r, WorldVercel.filterStepData entity RAll = Ok r
           ∧ r !! "input" = entity !! "input"
           ∧ r !! "output" = entity !! "output" ).
Proof.
  unfold Filters.filterRunData, Filters.filterStepData,
    Filters.filterEventData, Filters.filterHookData.
  rewrite !field_insert_eq, !field_delete_eq.
  rewrite field_insert_ne, field_insert_eq by done.
  repeat split.
  - destruct (filterStepData_none entity) as (d & _ & ->).
    eexists. split; [done |].
    rewrite field_insert_ne, !field_insert_eq; done.
  - destruct (deserializeStep_total entity) as [r Hr].
    exists r. split; [done |].
    split; by apply deserializeStep_frame.
Qed.

End Projection.

(** C7. For every decoded run, step, event and hook: the shared
    projection for [resolveData = 'all'] is the entity itself, and the
    projection for ['none'] has, at every field other than the bulky ones
    ([input] and [output]; [eventData]; [metadata]), what the entity has
    there. *)
Theorem projection_changes_bulky_fields_only (entity : gmap string value) (k : string) :
  ( Filters.filterRunData entity RAll = entity
    ∧ Filters.filterStepData entity RAll = entity
    ∧ Filters.filterEventData entity RAll = entity
    ∧ Filters.filterHookData entity RAll = entity )
  ∧ ( k ≠ "input" → k ≠ "output" →
      Filters.filterRunData entity RNone !! k = entity !! k
      ∧ Filters.filterStepData entity RNone !! k = entity !! k )
  ∧ ( k ≠ "eventData" → Filters.filterEventData entity RNone !! k = entity !! k )
  ∧ ( k ≠ "metadata" → Filters.filterHookData entity RNone !! k = entity !! k ).
Proof.
  split; [done |]. simpl. split; [| split].
  - intros Hin Hout. rewrite !lookup_insert_ne; done.
  - intros Hk. by apply lookup_delete_ne.
  - intros Hk. by apply lookup_delete_ne.
Qed.

(** ** The serialization boundary *)

(** C9. Validation against the combined [SerializedDataSchema] succeeds
    for every value and returns it: a [Uint8Array] passes the
    current-format [BinarySerializedDataSchema], every value passes the
    legacy schema, so the combined validator never fails. *)
Theorem SerializedDataSchema_accepts_everything (v : value) :
  Zod.safeParse Serialization.SerializedDataSchema v = Zod.Success v
  ∧ Zod.safeParse Serialization.LegacySerializedDataSchemaV1 v = Zod.Success v
  ∧ (∀ bs, Zod.safeParse Serialization.BinarySerializedDataSchema (JBytes bs)
           = Zod.Success (JBytes bs))
  ∧ Zod.safeParse Serialization.SerializedDataSchema v ≠ Zod.Failure.
Proof.
  assert (Zod.safeParse Serialization.SerializedDataSchema v = Zod.Success v) as Hv.
  { by destruct v. }
  split; [done |]. split; [done |]. split; [done |]. by rewrite Hv.
Qed.

(** The current-format schema accepts exactly the byte sequences. *)
Lemma BinarySerializedDataSchema_spec (v : value) :
  Zod.safeParse Serialization.BinarySerializedDataSchema v = Zod.Success v
  ↔ ∃ bs, v = JBytes bs.
Proof.
  split.
  - destruct v; simpl; intros Hv; try done. eauto.
  - by intros [bs ->].
Qed.

(** ** The remote backend's storage *)

(** C10. In the storage [createStorage] builds, [events.list] and
    [events.listByCorrelationId] are the same call of
    [getWorkflowRunEvents] with the caller's [params] and the storage's
    [config]: on every state of the service both resolve or reject alike
    and leave the same state. *)
Theorem events_list_listByCorrelationId_agree
    (World APIConfig : Type)
    (getWorkflowRun : string → value → option APIConfig → @Remote.Async World value)
    (listWorkflowRuns : value → option APIConfig → @Remote.Async World value)
    (getStep : option string → string → value → option APIConfig
               → @Remote.Async World value)
    (listWorkflowRunSteps : value → option APIConfig → @Remote.Async World value)
    (createWorkflowRunEvent : string → value → value → option APIConfig
                              → @Remote.Async World value)
    (getWorkflowRunEvents : value → option APIConfig → @Remote.Async World value)
    (getHook : string → value → option APIConfig → @Remote.Async World value)
    (getHookByToken : string → option APIConfig → @Remote.Async World value)
    (listHooks : value → option APIConfig → @Remote.Async World value)
    (config : option APIConfig) (params : value) (w : World) :
  let storage :=
    Remote.createStorage getWorkflowRun listWorkflowRuns getStep
      listWorkflowRunSteps createWorkflowRunEvent getWorkflowRunEvents getHook
      getHookByToken listHooks config in
  Remote.events_list (Remote.events storage) params w
  = getWorkflowRunEvents params config w
  ∧ Remote.events_listByCorrelationId (Remote.events storage) params w
    = Remote.events_list (Remote.events storage) params w.
Proof. done. Qed.

(** ** Decoding the error of a wire step *)

Section ErrorCodec.
Context `{!JsRuntime}.

Lemma delete_errorRef_rest (w : gmap string value) :
  delete "errorRef" (delete "error" (delete "errorRef" w))
  = delete "errorRef" (delete "error" w).
Proof.
  apply map_eq. intros k. rewrite !lookup_delete. by repeat case_decide.
Qed.

Lemma delete_error_insert_rest (w : gmap string value) v :
  delete "errorRef" (delete "error" (<["error" := v]> (delete "errorRef" w)))
  = delete "errorRef" (delete "error" w).
Proof.
  apply map_eq. intros k. rewrite !lookup_delete.
  repeat case_decide; try done.
  rewrite lookup_insert_ne, lookup_delete_ne; done.
Qed.

(** [deserializeStep] reads the wire step through [error ?? errorRef] and
    [rest] only. *)
Lemma deserializeStep_ext (w w' : gmap string value) :
  field w "error" ?? field w "errorRef" = field w' "error" ?? field w' "errorRef" →
  delete "errorRef" (delete "error" w) = delete "errorRef" (delete "error" w') →
  WorldVercel.deserializeStep w = WorldVercel.deserializeStep w'.
Proof.
  intros Hsrc Hrest. unfold WorldVercel.deserializeStep. cbv zeta.
  by rewrite Hsrc, Hrest.
Qed.

Lemma deserializeStep_falsy (w : gmap string value) :
  truthy (field w "error" ?? field w "errorRef") = false →
  WorldVercel.deserializeStep w = Ok (delete "errorRef" (delete "error" w)).
Proof. intros Hf. unfold WorldVercel.deserializeStep. cbv zeta. by rewrite Hf. Qed.

(** C2 (as the code has it). The error of the result is built from the
    inline [error] field whenever that field is neither [undefined] nor
    [null], and then [errorRef] is ignored; [errorRef] is used, in the
    place of [error], only when the inline field is [undefined] or
    [null]. *)
Theorem deserializeStep_inline_error_first (w : gmap string value) :
  WorldVercel.deserializeStep w
  = WorldVercel.deserializeStep
      (if is_nullish (field w "error")
       then <["error" := field w "errorRef"]> (delete "errorRef" w)
       else delete "errorRef" w).
Proof.
  destruct (is_nullish (field w "error")) eqn:Hnull.
  - assert (field w "error" ?? field w "errorRef" = field w "errorRef") as Hsrc
      by (by destruct (field w "error")).
    destruct (is_nullish (field w "errorRef")) eqn:Href.
    + rewrite !deserializeStep_falsy.
      * by rewrite delete_error_insert_rest.
      * rewrite field_insert_eq.
        rewrite field_insert_ne, field_delete_eq by done.
        by destruct (field w "errorRef").
      * rewrite Hsrc. by destruct (field w "errorRef").
    + apply deserializeStep_ext.
      * rewrite Hsrc, field_insert_eq.
        rewrite field_insert_ne, field_delete_eq by done.
        by destruct (field w "errorRef").
      * by rewrite delete_error_insert_rest.
  - apply deserializeStep_ext.
    + rewrite field_delete_eq, field_delete_ne by done.
      by destruct (field w "error").
    + by rewrite delete_errorRef_rest.
Qed.

(** What the [try] block yields when it does not throw. *)
Lemma parseErrorString_cases (s : string) (e : gmap string value) :
  WorldVercel.parseErrorString s = Ok e →
  (∃ str, e = {["message" := JString str]})
  ∨ (∃ parsed message stack code,
       JSON_parse s = Ok parsed ∧ getProp parsed "message" = Ok message
       ∧ message ≠ JUndefined
       ∧ e = WorldVercel.errorRecord message stack code).
Proof.
  unfold WorldVercel.parseErrorString.
  destruct (JSON_parse s) as [parsed|] eqn:Hparse; simpl; [| done].
  destruct (is_object_type parsed) eqn:Hobj; simpl.
  - destruct (getProp parsed "message") as [m|] eqn:Hm; simpl; [| done].
    destruct (is_undefined m) eqn:Hundef; simpl.
    + destruct (String_ parsed) as [str|]; simpl; [| done].
      intros [= <-]. left. eauto.
    + destruct (getProp parsed "stack") as [stack|]; simpl; [| done].
      destruct (getProp parsed "code") as [code|]; simpl; [| done].
      intros [= <-]. right. exists parsed, m, stack, code.
      repeat split; try done. intros ->. done.
  - destruct (String_ parsed) as [str|]; simpl; [| done].
    intros [= <-]. left. eauto.
Qed.

(** C3 (as the code has it). For every wire step, [deserializeStep] does
    not throw, and the [error] of its result is either absent or a record
    [{ message }] or [{ message, stack, code }], never the raw string or
    the wire value, with a [message] that is not [undefined].  The
    message is a string, unless it is the [message] property of the wire
    error object, or of the value the wire string parses to: that one is
    copied as it is. *)
Theorem deserializeStep_total_error_record (w : gmap string value) :
  let errorSource := field w "error" ?? field w "errorRef" in
  ∃ r, WorldVercel.deserializeStep w = Ok r ∧
    ( r !! "error" = None
      ∨ ∃ message,
          ( r !! "error" = Some (JObject {["message" := message]})
            ∨ ∃ stack code,
                r !! "error"
                = Some (JObject (WorldVercel.errorRecord message stack code)) )
          ∧ message ≠ JUndefined
          ∧ ( is_string message = true
              ∨ getProp errorSource "message" = Ok message
              ∨ ∃ s parsed, errorSource = JString s
                  ∧ JSON_parse s = Ok parsed
                  ∧ getProp parsed "message" = Ok message ) ).
Proof.
  intros errorSource. unfold WorldVercel.deserializeStep. cbv zeta.
  fold errorSource.
  set (rest := delete "errorRef" (delete "error" w)).
  assert (rest !! "error" = None) as Hrest.
  { unfold rest. by rewrite lookup_delete_ne, lookup_delete_eq. }
  destruct (truthy errorSource) eqn:Htruthy; [| eauto].
  destruct errorSource as [| |b|x|s|bs|vs|o] eqn:Hsrc; simpl; eauto.
  - unfold try_catch.
    destruct (WorldVercel.parseErrorString s) as [e|] eqn:He; simpl.
    + eexists. split; [done |]. right. rewrite lookup_insert_eq.
      destruct (parseErrorString_cases _ _ He)
        as [[str ->]|(parsed & m & stack & code & Hp & Hm & Hdef & ->)].
      * exists (JString str). split; [by left |]. split; [done |]. by left.
      * exists m. split; [right; eauto |]. split; [done |].
        right. right. eauto.
    + eexists. split; [done |]. right. rewrite lookup_insert_eq.
      exists (JString s). split; [by left |]. split; [done |]. by left.
  - eexists. split; [done |]. right. rewrite lookup_insert_eq.
    exists (JString "Unknown error"). split; [right; eauto |].
    split; [done |]. by left.
  - eexists. split; [done |]. right. rewrite lookup_insert_eq.
    exists (JString "Unknown error"). split; [right; eauto |].
    split; [done |]. by left.
  - eexists. split; [done |]. right. rewrite lookup_insert_eq.
    exists (field o "message" ?? JString "Unknown error").
    split; [right; eauto |].
    destruct (field o "message") eqn:Hm; simpl;
      (split; [done |]); try (by left); right; left; done.
Qed.

Lemma truthy_nonempty_string (s : string) : s ≠ "" → truthy (JString s) = true.
Proof. by destruct s. Qed.

(** The string branch: the error record is what the [try] block yields,
    or [{ message: errorSource }] when it throws. *)
Lemma deserializeStep_string (w : gmap string value) (s : string) :
  field w "error" = JString s → s ≠ "" →
  WorldVercel.deserializeStep w
  = Ok (<["error" :=
           JObject (match WorldVercel.parseErrorString s with
                    | Ok e => e
                    | Throw _ => {["message" := JString s]}
                    end)]> (delete "errorRef" (delete "error" w))).
Proof.
  intros Herr Hs. unfold WorldVercel.deserializeStep. cbv zeta.
  rewrite Herr. simpl nullish_coalesce.
  rewrite (truthy_nonempty_string s Hs).
  unfold try_catch. by destruct (WorldVercel.parseErrorString s).
Qed.

(** C4 (as the code has it). For a wire [error] that is a non-empty
    string [s], [deserializeStep] calls [JSON.parse]:
    - if parsing throws, the error is [{ message: s }];
    - if it yields a value of type [object] whose [message] is not
      [undefined], the error is its [{ message, stack, code }];
    - if it yields a value that is not of type [object], or one whose
      [message] is [undefined], and [String] converts it, the error is
      [{ message: String(parsed) }].
    For the empty string no error is set.  For a wire [error] of type
    [object] the error is its [{ message, stack, code }], with
    ["Unknown error"] for a [message] that is [undefined] or [null]. *)
Theorem deserializeStep_error_decoding (w : gmap string value) :
  let rest := delete "errorRef" (delete "error" w) in
  ( ∀ s, field w "error" = JString s → s ≠ "" →
      ( ∀ e, JSON_parse s = Throw e →
          WorldVercel.deserializeStep w
          = Ok (<["error" := JObject {["message" := JString s]}]> rest) )
      ∧ ( ∀ parsed message stack code,
            JSON_parse s = Ok parsed → is_object_type parsed = true →
            getProp parsed "message" = Ok message → message ≠ JUndefined →
            getProp parsed "stack" = Ok stack → getProp parsed "code" = Ok code →
            WorldVercel.deserializeStep w
            = Ok (<["error" :=
                     JObject (WorldVercel.errorRecord message stack code)]> rest) )
      ∧ ( ∀ parsed str,
            JSON_parse s = Ok parsed →
            is_object_type parsed = false
            ∨ getProp parsed "message" = Ok JUndefined →
            String_ parsed = Ok str →
            WorldVercel.deserializeStep w
            = Ok (<["error" := JObject {["message" := JString str]}]> rest) ) )
  ∧ ( field w "error" = JString "" → WorldVercel.deserializeStep w = Ok rest )
  ∧ ( ∀ message stack code,
        is_object_type (field w "error") = true →
        getProp (field w "error") "message" = Ok message →
        getProp (field w "error") "stack" = Ok stack →
        getProp (field w "error") "code" = Ok code →
        WorldVercel.deserializeStep w
        = Ok (<["error" :=
                 JObject (WorldVercel.errorRecord
                            (message ?? JString "Unknown error") stack code)]>
                rest) ).
Proof.
  intros rest. split; [| split].
  - intros s Herr Hs.
    rewrite (deserializeStep_string w s Herr Hs). fold rest.
    unfold WorldVercel.parseErrorString. split; [| split].
    + intros e ->. done.
    + intros parsed message stack code -> Hobj Hm Hdef Hstack Hcode. simpl.
      rewrite Hobj, Hm. simpl. rewrite Hstack, Hcode. simpl.
      by destruct message.
    + intros parsed str -> Hcase Hstr. simpl.
      destruct Hcase as [Hobj|Hm].
      * rewrite Hobj. simpl. by rewrite Hstr.
      * destruct (is_object_type parsed); simpl.
        -- rewrite Hm. simpl. by rewrite Hstr.
        -- by rewrite Hstr.
  - intros Herr. apply deserializeStep_falsy. by rewrite Herr.
  - intros message stack code Hobj Hm Hstack Hcode.
    unfold WorldVercel.deserializeStep. cbv zeta. fold rest.
    destruct (field w "error") as [| |b|x|s|bs|vs|o]; try done; simpl in *.
    + injection Hm as <-. injection Hstack as <-. injection Hcode as <-. done.
    + injection Hm as <-. injection Hstack as <-. injection Hcode as <-. done.
    + injection Hm as <-. injection Hstack as <-. injection Hcode as <-. done.
Qed.

End ErrorCodec.

(** ** The filesystem backend's [steps.get] *)

Section StepsGet.
Import WorldLocal.
Variable DEFAULT_RESOLVE_DATA_OPTION : ResolveData.

Lemma endsWith_app (r t : string) : endsWith (r +:+ t) t = true.
Proof.
  induction r as [|c r IH].
  - change ("" +:+ t) with t.
    destruct t; [done |]. cbn [endsWith]. by rewrite String.eqb_refl.
  - change (String c r +:+ t) with (String c (r +:+ t)).
    cbn [endsWith]. rewrite IH. apply orb_true_r.
Qed.

Lemma split_head_app (r t : string) :
  dash_free r = true → split_head (r +:+ "-" +:+ t) = r.
Proof.
  induction r as [|c r IH]; simpl; [done |].
  intros [Hc Hr]%andb_prop. apply negb_true_iff in Hc. rewrite Hc.
  by rewrite IH.
Qed.

Lemma composite_key_nonempty (r t : string) : r +:+ "-" +:+ t ≠ "".
Proof. by destruct r. Qed.

(** A file that [listJSONFiles] lists can be read. *)
Lemma readJSON_listed (dir : list (string * gmap string value)) (fileId : string) :
  fileId ∈ listJSONFiles dir → is_Some (readJSON dir fileId).
Proof.
  unfold listJSONFiles, readJSON.
  induction dir as [|[name step] dir IH]; simpl.
  - by intros ?%elem_of_nil.
  - intros [->|Hin]%elem_of_cons.
    + rewrite String.eqb_refl. simpl. eauto.
    + destruct (String.eqb name fileId); simpl; eauto.
Qed.

Lemma find_listed {A} (P : A → bool) (l : list A) (x : A) :
  List.find P l = Some x → x ∈ l.
Proof. intros [Hin _]%find_some. by apply list_elem_of_In. Qed.

Lemma findRunId_found (dir : list (string * gmap string value)) (runId stepId : string) :
  dash_free runId = true →
  List.find (λ fileId, endsWith fileId ("-" +:+ stepId)) (listJSONFiles dir)
  = Some (runId +:+ "-" +:+ stepId) →
  findRunId dir stepId = Ok runId.
Proof.
  intros Hdash Hfind. unfold findRunId. rewrite Hfind.
  rewrite (split_head_app runId stepId Hdash).
  pose proof (composite_key_nonempty runId stepId) as Hne.
  by destruct (runId +:+ "-" +:+ stepId).
Qed.

(** C5 (as the code has it). For a step stored under [(runId, stepId)]
    whose run id has no dash, and whose file is the first one listed with
    a name ending in [-{stepId}]: [steps.get] without a run id finds the
    run id from that file name and returns what [steps.get] returns with
    the run id given, the projection of the stored record. *)
Theorem get_reverse_lookup_same_record
    (dir : list (string * gmap string value)) (runId stepId : string)
    (params : option GetStepParams) :
  dash_free runId = true →
  List.find (λ fileId, endsWith fileId ("-" +:+ stepId)) (listJSONFiles dir)
  = Some (runId +:+ "-" +:+ stepId) →
  ∃ step, readJSON dir (runId +:+ "-" +:+ stepId) = Some step
    ∧ get DEFAULT_RESOLVE_DATA_OPTION dir None stepId params
      = Ok (Filters.filterStepData step
              (resolveData_of DEFAULT_RESOLVE_DATA_OPTION params))
    ∧ get DEFAULT_RESOLVE_DATA_OPTION dir None stepId params
      = get DEFAULT_RESOLVE_DATA_OPTION dir (Some runId) stepId params.
Proof.
  intros Hdash Hfind.
  destruct (readJSON_listed dir _ (find_listed _ _ _ Hfind)) as [step Hstep].
  exists step. split; [done |].
  assert (get DEFAULT_RESOLVE_DATA_OPTION dir None stepId params
          = Ok (Filters.filterStepData step
                  (resolveData_of DEFAULT_RESOLVE_DATA_OPTION params))) as Hnone.
  { unfold get. simpl no_id. cbv iota.
    rewrite (findRunId_found dir runId stepId Hdash Hfind). simpl.
    by rewrite Hstep. }
  split; [done |]. rewrite Hnone. unfold get.
  destruct (no_id (Some runId)) eqn:Hid.
  - rewrite (findRunId_found dir runId stepId Hdash Hfind). simpl.
    by rewrite Hstep.
  - simpl. by rewrite Hstep.
Qed.

(** C6 (as the code has it). For a step id and a run id, if one is
    given, that have no path separator and no NUL, so that [path.join]
    leaves the file name [{runId}-{stepId}.json] as it is: [steps.get]
    with a non-empty run id and no file for [(runId, stepId)] throws an
    error whose message names the step id and the run id.  Without a run
    id (it is [undefined] or the empty string) and with no file name
    ending in [-{stepId}], it throws an error whose message names the
    step id.  It never succeeds with anything but the projection of a
    stored record whose file name ends in [-{stepId}]. *)
Theorem get_missing_step_not_found
    (dir : list (string * gmap string value)) (runId : option string)
    (stepId : string) (params : option GetStepParams) :
  plain_id stepId = true →
  (∀ r, runId = Some r → plain_id r = true) →
  ( ∀ r, runId = Some r → r ≠ "" → readJSON dir (r +:+ "-" +:+ stepId) = None →
      get DEFAULT_RESOLVE_DATA_OPTION dir runId stepId params
      = Throw (Error ("Step " +:+ stepId +:+ " in run " +:+ r +:+ " not found")) )
  ∧ ( no_id runId = true →
      List.find (λ fileId, endsWith fileId ("-" +:+ stepId)) (listJSONFiles dir)
      = None →
      get DEFAULT_RESOLVE_DATA_OPTION dir runId stepId params
      = Throw (Error ("Step " +:+ stepId +:+ " not found")) )
  ∧ ( ∀ res, get DEFAULT_RESOLVE_DATA_OPTION dir runId stepId params = Ok res →
      ∃ r step, readJSON dir (r +:+ "-" +:+ stepId) = Some step
        ∧ res = Filters.filterStepData step
                  (resolveData_of DEFAULT_RESOLVE_DATA_OPTION params)
        ∧ (no_id runId = false → runId = Some r) ).
Proof.
  intros _ _. split; [| split].
  - intros r -> Hr Hread. unfold get.
    assert (no_id (Some r) = false) as -> by (by destruct r).
    simpl. by rewrite Hread.
  - intros Hid Hfind. unfold get. rewrite Hid.
    unfold findRunId. by rewrite Hfind.
  - intros res. unfold get.
    destruct (if no_id runId then findRunId dir stepId else Ok (default "" runId))
      as [r|] eqn:Hr; simpl; [| done].
    destruct (readJSON dir (r +:+ "-" +:+ stepId)) as [step|] eqn:Hread; [| done].
    intros [= <-]. exists r, step. split; [done |]. split; [done |].
    intros Hid. rewrite Hid in Hr. destruct runId as [r'|]; [| done].
    simpl in Hr. by injection Hr as ->.
Qed.

End StepsGet.

(** ** The two [filterStepData] *)

Lemma prune_undefined (v : value) : is_undefined (prune v) = is_undefined v.
Proof. by destruct v. Qed.

Lemma lookup_prune_record (o : gmap string value) (k : string) :
  prune_record o !! k
  = if is_undefined (field o k) then None else Some (prune (field o k)).
Proof.
  unfold prune_record, field. rewrite lookup_omap.
  by destruct (o !! k).
Qed.

(** Records that read alike, up to shape, at every property have the
    same shape. *)
Lemma same_shape (a b : gmap string value) :
  (∀ k, prune (field a k) = prune (field b k)) → prune_record a = prune_record b.
Proof.
  intros Hfields. apply map_eq. intros k. rewrite !lookup_prune_record.
  rewrite <- (prune_undefined (field a k)), <- (prune_undefined (field b k)).
  by rewrite (Hfields k).
Qed.

Lemma field_errorRecord (message stack code : value) (k : string) :
  field (WorldVercel.errorRecord message stack code) k
  = if decide (k = "code") then code
    else if decide (k = "stack") then stack
    else if decide (k = "message") then message
    else JUndefined.
Proof.
  unfold WorldVercel.errorRecord, field.
  repeat case_decide; subst; simplify_map_eq; done.
Qed.

(** A [StructuredError] reads [undefined] outside its three fields. *)
Lemma StructuredError_fields (e : gmap string value) :
  is_StructuredError (JObject e) = true →
  (∃ m, field e "message" = JString m)
  ∧ ∀ k, k ≠ "message" → k ≠ "stack" → k ≠ "code" → field e k = JUndefined.
Proof.
  simpl. intros [[[Hm _]%andb_prop _]%andb_prop Hall%bool_decide_eq_true_1]%andb_prop.
  split.
  - destruct (field e "message"); try done. eauto.
  - intros k Hk1 Hk2 Hk3. unfold field.
    destruct (e !! k) as [x|] eqn:Hx; [| done]. simpl.
    destruct (Hall k x Hx) as [Hin|Hundef].
    + rewrite !elem_of_cons, elem_of_nil in Hin.
      destruct Hin as [Hk|[Hk|[Hk|[]]]]; done.
    + by apply is_undefined_true.
Qed.

Section Backends.
Context `{!JsRuntime}.

(** On a decoded step, [deserializeStep] changes no shape. *)
Lemma deserializeStep_decoded (step : gmap string value) :
  field step "errorRef" = JUndefined →
  field step "error" = JUndefined ∨ is_StructuredError (field step "error") = true →
  ∃ d, WorldVercel.deserializeStep step = Ok d
       ∧ ∀ k, prune (field d k) = prune (field step k).
Proof.
  intros Href [Herr|Herr].
  - rewrite deserializeStep_falsy by (by rewrite Herr, Href).
    eexists. split; [done |]. intros k.
    destruct (decide (k = "errorRef")) as [->|Hk1].
    { by rewrite field_delete_eq, Href. }
    rewrite field_delete_ne by done.
    destruct (decide (k = "error")) as [->|Hk2].
    { by rewrite field_delete_eq, Herr. }
    by rewrite field_delete_ne.
  - destruct (field step "error") as [| |b|x|s|bs|vs|e] eqn:He; try done.
    destruct (StructuredError_fields e Herr) as [[m Hm] Hother].
    unfold WorldVercel.deserializeStep. cbv zeta. rewrite He. simpl.
    rewrite Hm. simpl.
    eexists. split; [done |]. intros k.
    destruct (decide (k = "error")) as [->|Hk1].
    + rewrite field_insert_eq, He. simpl. f_equal.
      apply same_shape. intros k. rewrite field_errorRecord.
      repeat case_decide; subst; try done.
      * by rewrite Hm.
      * by rewrite Hother.
    + rewrite field_insert_ne by done.
      destruct (decide (k = "errorRef")) as [->|Hk2].
      { by rewrite field_delete_eq, Href. }
      by rewrite !field_delete_ne.
Qed.

(** On a step with no wire field and an error record in the form
    [deserializeStep] writes, [deserializeStep] changes nothing. *)
Lemma deserializeStep_canonical (step : gmap string value) :
  step !! "errorRef" = None →
  ( step !! "error" = None
    ∨ ∃ m stack code,
        step !! "error"
        = Some (JObject (WorldVercel.errorRecord (JString m) stack code)) ) →
  WorldVercel.deserializeStep step = Ok step.
Proof.
  intros Href Herr.
  assert (delete "errorRef" (delete "error" step) = delete "error" step) as Hrest.
  { apply map_eq. intros k. rewrite !lookup_delete.
    repeat case_decide; subst; done. }
  assert (field step "errorRef" = JUndefined) as HrefU
    by (unfold field; by rewrite Href).
  unfold WorldVercel.deserializeStep. cbv zeta. rewrite Hrest, HrefU.
  destruct Herr as [Herr|(m & stack & code & Herr)].
  - assert (field step "error" = JUndefined) as ->
      by (unfold field; by rewrite Herr).
    simpl. f_equal. apply map_eq. intros k. rewrite lookup_delete.
    case_decide; subst; done.
  - assert (field step "error"
            = JObject (WorldVercel.errorRecord (JString m) stack code)) as ->
      by (unfold field; by rewrite Herr).
    cbn [default nullish_coalesce truthy is_object_type typeof is_null negb
         andb getProp mbind mret result_bind result_ret].
    rewrite !field_errorRecord. simpl. f_equal.
    apply map_eq. intros k.
    destruct (decide (k = "error")) as [->|Hk].
    + by rewrite lookup_insert_eq.
    + by rewrite lookup_insert_ne, lookup_delete_ne.
Qed.

(** C8 (as the code has it). For every decoded step (no [inputRef],
    [outputRef] or [errorRef] left to resolve, and an [error] that is
    absent or a [StructuredError]) and for both values of [resolveData],
    the remote backend's [filterStepData] returns, without throwing, a
    step of the same shape as the shared [filterStepData] returns: the
    two agree at every property, a property holding [undefined] counting
    as absent.  The two results are the same record when the three wire
    fields are not even present and the error is absent or has the form
    [{ message, stack, code }], with a string for a message, that
    [deserializeStep] writes. *)
Theorem filterStepData_backends_agree (step : gmap string value) (rd : ResolveData) :
  ( is_decoded_step step = true →
    ∃ r, WorldVercel.filterStepData step rd = Ok r
         ∧ prune_record r = prune_record (Filters.filterStepData step rd) )
  ∧ ( step !! "inputRef" = None → step !! "outputRef" = None →
      step !! "errorRef" = None →
      ( step !! "error" = None
        ∨ ∃ m stack code,
            step !! "error"
            = Some (JObject (WorldVercel.errorRecord (JString m) stack code)) ) →
      WorldVercel.filterStepData step rd = Ok (Filters.filterStepData step rd) ).
Proof.
  split.
  - unfold is_decoded_step.
    intros [[[Hin%is_undefined_true Hout%is_undefined_true]%andb_prop
             Href%is_undefined_true]%andb_prop Herr%orb_prop]%andb_prop.
    rewrite is_undefined_true in Herr.
    destruct rd.
    + destruct (filterStepData_none step) as (d & Hd & ->).
      eexists. split; [done |]. apply same_shape. intros k. simpl.
      destruct (deserializeStep_decoded
                  (delete "outputRef" (delete "inputRef" step)))
        as (d' & Hd' & Hshape).
      { by rewrite !field_delete_ne. }
      { by rewrite !field_delete_ne. }
      rewrite Hd in Hd'. injection Hd' as <-.
      destruct (decide (k = "output")) as [->|Hk1].
      { by rewrite !field_insert_eq. }
      rewrite !(field_insert_ne _ "output") by done.
      destruct (decide (k = "input")) as [->|Hk2].
      { by rewrite !field_insert_eq. }
      rewrite !(field_insert_ne _ "input") by done.
      rewrite Hshape.
      destruct (decide (k = "outputRef")) as [->|Hk3].
      { by rewrite field_delete_eq, Hout. }
      rewrite field_delete_ne by done.
      destruct (decide (k = "inputRef")) as [->|Hk4].
      { by rewrite field_delete_eq, Hin. }
      by rewrite field_delete_ne.
    + destruct (deserializeStep_decoded step Href Herr) as (d & Hd & Hshape).
      exists d. split; [done |]. by apply same_shape.
  - intros Hin Hout Href Herr. destruct rd; simpl.
    + assert (delete "outputRef" (delete "inputRef" step) = step) as ->.
      { apply map_eq. intros k. rewrite !lookup_delete.
        repeat case_decide; subst; done. }
      by rewrite (deserializeStep_canonical step Href Herr).
    + by apply deserializeStep_canonical.
Qed.

End Backends.

(* ===================================================================== *)
(** * The properties on the samples                                       *)
(* ===================================================================== *)

Section OnSamples.
Import Samples.

(** ** [deserializeStep] under the reference runtime *)

(** With both [error] and [errorRef] on the wire, the error of the result
    comes from the inline [error], not from [errorRef]: the result
    differs from the one built from [errorRef] alone. *)
Lemma deserializeStep_errorRef_loses :
  WorldVercel.deserializeStep wire_both
  = Ok {[ "stepId" := JString "s1";
          "error" := JObject {["message" := JString "inline failure"]} ]}
  ∧ WorldVercel.deserializeStep (delete "error" wire_both)
    = Ok {[ "stepId" := JString "s1";
            "error" := JObject (WorldVercel.errorRecord
                                  (JString "resolved failure")
                                  JUndefined JUndefined) ]}
  ∧ WorldVercel.deserializeStep wire_both
    ≠ WorldVercel.deserializeStep (delete "error" wire_both).
Proof.
  split; [vm_compute; reflexivity |].
  split; [vm_compute; reflexivity |].
  intros Heq.
  apply (f_equal (λ r, match r with
                       | Ok step =>
                           match field step "error" with
                           | JObject e => field e "message"
                           | _ => JUndefined
                           end
                       | Throw _ => JUndefined
                       end)) in Heq.
  vm_compute in Heq. discriminate Heq.
Qed.

(** The wire error [{"message":42}], a JSON string: the error of the
    result has the number 42 for its message, so it is present and not a
    [StructuredError]. *)
Lemma deserializeStep_message_not_string :
  JSON_parse json_message_42 = Ok (JObject {["message" := JNumber forty_two]})
  ∧ WorldVercel.deserializeStep (wire_with (JString json_message_42))
    = Ok (<["error" := JObject (WorldVercel.errorRecord (JNumber forty_two)
                                  JUndefined JUndefined)]> wire_rest)
  ∧ is_string (JNumber forty_two) = false
  ∧ is_StructuredError
      (JObject (WorldVercel.errorRecord (JNumber forty_two) JUndefined JUndefined))
    = false.
Proof. repeat split; vm_compute; reflexivity. Qed.

(** The wire error [""], a string that [JSON.parse] rejects: no error is
    set, where [{ message: "" }] was claimed. *)
Lemma deserializeStep_empty_string_no_error :
  JSON_parse "" = Throw SyntaxError
  ∧ WorldVercel.deserializeStep (wire_with (JString "")) = Ok wire_rest
  ∧ wire_rest !! "error" = None
  ∧ WorldVercel.deserializeStep (wire_with (JString ""))
    ≠ Ok (<["error" := JObject {["message" := JString ""]}]> wire_rest).
Proof.
  split; [vm_compute; reflexivity |].
  split; [vm_compute; reflexivity |].
  split; [vm_compute; reflexivity |].
  intros Heq.
  apply (f_equal (λ r, match r with
                       | Ok step => is_undefined (field step "error")
                       | Throw _ => false
                       end)) in Heq.
  vm_compute in Heq. discriminate Heq.
Qed.

(** The wire error [ null]: [JSON.parse] yields [null], reading
    [parsed.message] throws inside the [try], and the [catch] takes the
    raw text for the message, not [String(null)]. *)
Example deserializeStep_null_text :
  JSON_parse " null" = Ok JNull
  ∧ String_ JNull = Ok "null"
  ∧ WorldVercel.deserializeStep (wire_with (JString " null"))
    = Ok (<["error" := JObject {["message" := JString " null"]}]> wire_rest).
Proof. repeat split; vm_compute; reflexivity. Qed.

Lemma deserializeStep_error_decoding_witness :
  ( JSON_parse "boom" = Throw SyntaxError
    ∧ WorldVercel.deserializeStep (wire_with (JString "boom"))
      = Ok (<["error" := JObject {["message" := JString "boom"]}]> wire_rest) )
  ∧ WorldVercel.deserializeStep (wire_with (JString json_error))
    = Ok (<["error" := JObject (WorldVercel.errorRecord (JString "x")
                                  (JString "at f") JUndefined)]> wire_rest)
  ∧ WorldVercel.deserializeStep (wire_with (JString "42"))
    = Ok (<["error" := JObject {["message" := JString "42"]}]> wire_rest)
  ∧ WorldVercel.deserializeStep (wire_with (JString "")) = Ok wire_rest
  ∧ WorldVercel.deserializeStep
      (wire_with (JObject {["stack" := JString "at g"]}))
    = Ok (<["error" := JObject (WorldVercel.errorRecord (JString "Unknown error")
                                  (JString "at g") JUndefined)]> wire_rest).
Proof.
  assert (∀ e, delete "errorRef" (delete "error" (wire_with e)) = wire_rest)
    as Hrest by (intros e; vm_compute; reflexivity).
  split; [split; [vm_compute; reflexivity |] |]; [| split; [| split; [| split]]].
  - destruct (deserializeStep_error_decoding (wire_with (JString "boom")))
      as (Hstr & _ & _).
    destruct (Hstr "boom") as (Hthrow & _ & _);
      [vm_compute; reflexivity | done |].
    rewrite <- (Hrest (JString "boom")).
    apply (Hthrow SyntaxError). vm_compute; reflexivity.
  - destruct (deserializeStep_error_decoding (wire_with (JString json_error)))
      as (Hstr & _ & _).
    destruct (Hstr json_error) as (_ & Hobj & _);
      [vm_compute; reflexivity | done |].
    rewrite <- (Hrest (JString json_error)).
    apply (Hobj (JObject {["message" := JString "x"; "stack" := JString "at f"]}));
      try (vm_compute; reflexivity).
    done.
  - destruct (deserializeStep_error_decoding (wire_with (JString "42")))
      as (Hstr & _ & _).
    destruct (Hstr "42") as (_ & _ & Hother);
      [vm_compute; reflexivity | done |].
    rewrite <- (Hrest (JString "42")).
    apply (Hother (JNumber forty_two)); [vm_compute; reflexivity | by left |].
    vm_compute; reflexivity.
  - destruct (deserializeStep_error_decoding (wire_with (JString "")))
      as (_ & Hempty & _).
    rewrite <- (Hrest (JString "")). apply Hempty. vm_compute; reflexivity.
  - destruct (deserializeStep_error_decoding
                (wire_with (JObject {["stack" := JString "at g"]})))
      as (_ & _ & Hobj).
    rewrite <- (Hrest (JObject {["stack" := JString "at g"]})).
    apply (Hobj JUndefined (JString "at g") JUndefined);
      vm_compute; reflexivity.
Defined.

(** ** The projections *)

Lemma projection_changes_bulky_fields_only_witness :
  "runId" ≠ "input" ∧ "runId" ≠ "output"
  ∧ "runId" ≠ "eventData" ∧ "runId" ≠ "metadata"
  ∧ Filters.filterRunData entity RNone !! "runId" = Some (JString "r1")
  ∧ Filters.filterStepData entity RNone !! "runId" = Some (JString "r1")
  ∧ Filters.filterEventData entity RNone !! "runId" = Some (JString "r1")
  ∧ Filters.filterHookData entity RNone !! "runId" = Some (JString "r1")
  ∧ Filters.filterRunData entity RAll = entity.
Proof.
  destruct (projection_changes_bulky_fields_only entity "runId")
    as ((Hall & _) & Hrun & Hevent & Hhook).
  assert (entity !! "runId" = Some (JString "r1")) as Hid
    by (vm_compute; reflexivity).
  split; [done |]. split; [done |]. split; [done |]. split; [done |].
  destruct Hrun as [Hrun Hstep]; [done | done |].
  rewrite Hrun, Hstep, Hevent, Hhook by done.
  done.
Defined.

Lemma filterStepData_backends_agree_witness :
  is_decoded_step step_s1 = true
  ∧ ( ∃ r, WorldVercel.filterStepData step_s1 RNone = Ok r
           ∧ prune_record r = prune_record (Filters.filterStepData step_s1 RNone) )
  ∧ WorldVercel.filterStepData step_s2 RAll = Ok (Filters.filterStepData step_s2 RAll).
Proof.
  assert (is_decoded_step step_s1 = true) as Hdecoded
    by (vm_compute; reflexivity).
  split; [done |]. split.
  - exact (proj1 (filterStepData_backends_agree step_s1 RNone) Hdecoded).
  - apply (proj2 (filterStepData_backends_agree step_s2 RAll));
      try (vm_compute; reflexivity).
    left. vm_compute; reflexivity.
Defined.

(** The step [s1] is decoded, and its error is [{ message: 'failed' }].
    The two projections of it are not the same record, for ['all'] and
    for ['none']: the remote backend's has [stack] and [code] in the
    error record, the shared one's has not. *)
Lemma filterStepData_backends_differ :
  is_decoded_step step_s1 = true
  ∧ WorldVercel.filterStepData step_s1 RAll
    ≠ Ok (Filters.filterStepData step_s1 RAll)
  ∧ WorldVercel.filterStepData step_s1 RNone
    ≠ Ok (Filters.filterStepData step_s1 RNone).
Proof.
  pose (has_stack := λ r : result (gmap string value),
          match r with
          | Ok step =>
              match field step "error" with
              | JObject e => bool_decide (is_Some (e !! "stack"))
              | _ => false
              end
          | Throw _ => false
          end).
  split; [vm_compute; reflexivity |].
  split; intros Heq; apply (f_equal has_stack) in Heq;
    vm_compute in Heq; discriminate Heq.
Qed.

(** The remote backend leaves [stack] and [code] in the error record,
    holding [undefined]; the shared filter returns the record as it is. *)
Example filterStepData_backends_differ_in_undefined_fields :
  ∃ r, WorldVercel.filterStepData step_s1 RAll = Ok r
       ∧ field r "error"
         = JObject (WorldVercel.errorRecord (JString "failed") JUndefined JUndefined)
       ∧ field (Filters.filterStepData step_s1 RAll) "error"
         = JObject {["message" := JString "failed"]}.
Proof.
  eexists. split; [vm_compute; reflexivity |].
  split; vm_compute; reflexivity.
Qed.

(** ** The filesystem backend *)

(** The step of run [a-b] is stored in [a-b-s1.json].  With the run id it
    is found; without, the run id is taken to be [a], and the lookup
    fails. *)
Lemma get_reverse_lookup_dash :
  WorldLocal.readJSON steps_dir_dash "a-b-s1" = Some step_ab
  ∧ WorldLocal.get RAll steps_dir_dash (Some "a-b") "s1" None = Ok step_ab
  ∧ WorldLocal.get RAll steps_dir_dash None "s1" None
    = Throw (Error "Step s1 in run a not found")
  ∧ WorldLocal.get RAll steps_dir_dash None "s1" None
    ≠ WorldLocal.get RAll steps_dir_dash (Some "a-b") "s1" None.
Proof.
  split; [vm_compute; reflexivity |].
  assert (WorldLocal.get RAll steps_dir_dash (Some "a-b") "s1" None = Ok step_ab)
    as -> by (vm_compute; reflexivity).
  assert (WorldLocal.get RAll steps_dir_dash None "s1" None
          = Throw (Error "Step s1 in run a not found"))
    as -> by (vm_compute; reflexivity).
  done.
Qed.

Lemma get_reverse_lookup_same_record_witness :
  dash_free "r2" = true
  ∧ List.find (λ fileId, WorldLocal.endsWith fileId "-s2")
      (WorldLocal.listJSONFiles steps_dir) = Some "r2-s2"
  ∧ WorldLocal.get RAll steps_dir None "s2" None = Ok step_s2
  ∧ WorldLocal.get RAll steps_dir None "s2" None
    = WorldLocal.get RAll steps_dir (Some "r2") "s2" None.
Proof.
  assert (dash_free "r2" = true) as Hdash by reflexivity.
  assert (List.find (λ fileId, WorldLocal.endsWith fileId ("-" +:+ "s2"))
            (WorldLocal.listJSONFiles steps_dir) = Some ("r2" +:+ "-" +:+ "s2"))
    as Hfind by reflexivity.
  split; [done |]. split; [exact Hfind |].
  destruct (get_reverse_lookup_same_record RAll steps_dir "r2" "s2" None Hdash Hfind)
    as (step & Hread & Hnone & Hsame).
  split; [| exact Hsame].
  rewrite Hnone. f_equal.
  assert (WorldLocal.readJSON steps_dir ("r2" +:+ "-" +:+ "s2") = Some step_s2)
    as Hread' by reflexivity.
  rewrite Hread' in Hread. by injection Hread as <-.
Defined.

(** The run id [""] counts as no run id: there is no file [-s1.json], yet
    [steps.get("", "s1")] returns the step of run [r1].  And without a
    run id, the message for a step that no file name ends with names the
    step only. *)
Lemma get_empty_run_id_succeeds :
  WorldLocal.readJSON steps_dir ("" +:+ "-" +:+ "s1") = None
  ∧ WorldLocal.get RAll steps_dir (Some "") "s1" None = Ok step_s1
  ∧ WorldLocal.get RAll steps_dir None "s9" None
    = Throw (Error "Step s9 not found").
Proof. repeat split; vm_compute; reflexivity. Qed.

Lemma get_missing_step_not_found_witness :
  plain_id "s1" = true ∧ plain_id "s9" = true
  ∧ plain_id "r1" = true ∧ plain_id "r9" = true
  ∧ "r9" ≠ ""
  ∧ WorldLocal.readJSON steps_dir "r9-s1" = None
  ∧ WorldLocal.get RAll steps_dir (Some "r9") "s1" None
    = Throw (Error "Step s1 in run r9 not found")
  ∧ WorldLocal.get RAll steps_dir None "s9" None
    = Throw (Error "Step s9 not found")
  ∧ ∃ r step, WorldLocal.get RAll steps_dir (Some "r1") "s1" None = Ok step
      ∧ WorldLocal.readJSON steps_dir (r +:+ "-" +:+ "s1") = Some step
      ∧ Some "r1" = Some r.
Proof.
  do 4 (split; [reflexivity |]).
  split; [done |]. split; [reflexivity |].
  split; [| split].
  - destruct (get_missing_step_not_found RAll steps_dir (Some "r9") "s1" None)
      as (Hmissing & _ & _); [reflexivity | by intros r [= <-] |].
    apply (Hmissing "r9"); [done | done | reflexivity].
  - destruct (get_missing_step_not_found RAll steps_dir None "s9" None)
      as (_ & Hnone & _); [reflexivity | by intros r [=] |].
    apply Hnone; reflexivity.
  - destruct (get_missing_step_not_found RAll steps_dir (Some "r1") "s1" None)
      as (_ & _ & Hok); [reflexivity | by intros r [= <-] |].
    destruct (Hok step_s1) as (r & step & Hread & Hres & Hid);
      [vm_compute; reflexivity |].
    exists r, step_s1. split; [vm_compute; reflexivity |].
    split; [| by apply Hid].
    rewrite Hread. by rewrite Hres.
Defined.

End OnSamples.

(* ===================================================================== *)
(** * Further properties of the projections                               *)
(* ===================================================================== *)

(** X1. Projecting twice is projecting once, with ['none'] if either
    projection is ['none']: for each of the four shared filters. *)
Theorem filters_compose (entity : gmap string value) (m1 m2 : ResolveData) :
  let m := match m1, m2 with RAll, RAll => RAll | _, _ => RNone end in
  Filters.filterRunData (Filters.filterRunData entity m1) m2
  = Filters.filterRunData entity m
  ∧ Filters.filterStepData (Filters.filterStepData entity m1) m2
    = Filters.filterStepData entity m
  ∧ Filters.filterEventData (Filters.filterEventData entity m1) m2
    = Filters.filterEventData entity m
  ∧ Filters.filterHookData (Filters.filterHookData entity m1) m2
    = Filters.filterHookData entity m.
Proof.
  destruct m1, m2; simpl; repeat split; try done;
    apply map_eq; intros k;
    rewrite ?lookup_insert, ?lookup_delete; repeat case_decide; done.
Qed.

(** X2. What [Object.keys] sees: under ['none'] a run or a step always
    has the properties [input] and [output] (holding [undefined]), also
    when the entity had none, and no other property comes or goes; an
    event loses [eventData] and a hook loses [metadata], and nothing
    else. *)
Theorem filters_none_keys (entity : gmap string value) :
  dom (Filters.filterRunData entity RNone) = {["input"; "output"]} ∪ dom entity
  ∧ dom (Filters.filterStepData entity RNone) = {["input"; "output"]} ∪ dom entity
  ∧ dom (Filters.filterEventData entity RNone) = dom entity ∖ {["eventData"]}
  ∧ dom (Filters.filterHookData entity RNone) = dom entity ∖ {["metadata"]}.
Proof.
  simpl. rewrite !dom_insert_L, !dom_delete_L.
  assert ({["output"]} ∪ ({["input"]} ∪ dom entity)
          = ({["input"; "output"]} : gset string) ∪ dom entity) as ->.
  { apply set_eq. intros k.
    rewrite !elem_of_union, !elem_of_singleton. tauto. }
  done.
Qed.

Section MoreDeserializeStep.
Context `{!JsRuntime}.

(** X3. [deserializeStep] never throws; its result has no [errorRef],
    and every property other than [error] and [errorRef] as the wire
    step has it. *)
Theorem deserializeStep_drops_errorRef (w : gmap string value) :
  ∃ r, WorldVercel.deserializeStep w = Ok r
       ∧ r !! "errorRef" = None
       ∧ ∀ k, k ≠ "error" → k ≠ "errorRef" → r !! k = w !! k.
Proof.
  destruct (deserializeStep_total w) as [r Hr]. exists r.
  split; [done |]. split.
  - destruct (deserializeStep_cases w) as [Hw|[e Hw]];
      rewrite Hw in Hr; injection Hr as <-.
    + by rewrite lookup_delete_eq.
    + rewrite lookup_insert_ne, lookup_delete_eq; done.
  - intros k Hk1 Hk2. by apply deserializeStep_frame.
Qed.

(** X4. The result of [deserializeStep] has no [error] exactly when
    [error ?? errorRef] is the empty string, or is neither a string nor
    an object: [undefined], [null], a boolean or a number.  So a wire
    error [true] or [1] is dropped, and an inline [""] hides an
    [errorRef]. *)
Theorem deserializeStep_error_absent_iff (w r : gmap string value) :
  let errorSource := field w "error" ?? field w "errorRef" in
  WorldVercel.deserializeStep w = Ok r →
  ( r !! "error" = None
    ↔ errorSource = JString ""
      ∨ ( is_string errorSource = false
          ∧ ( is_object_type errorSource = false ∨ errorSource = JNull ) ) ).
Proof.
  intros errorSource. unfold WorldVercel.deserializeStep. cbv zeta.
  fold errorSource.
  set (rest := delete "errorRef" (delete "error" w)).
  assert (rest !! "error" = None) as Hrest.
  { unfold rest. by rewrite lookup_delete_ne, lookup_delete_eq. }
  destruct errorSource as [| |b|x|s|bs|vs|o] eqn:Hsrc.
  - simpl. intros [= <-]. intuition (discriminate || congruence).
  - simpl. intros [= <-]. intuition (discriminate || congruence).
  - destruct b; simpl; intros [= <-]; intuition (discriminate || congruence).
  - destruct (truthy (JNumber x)); simpl; intros [= <-]; intuition (discriminate || congruence).
  - destruct s as [|c s].
    + simpl. intros [= <-]. intuition (discriminate || congruence).
    + simpl. unfold try_catch.
      destruct (WorldVercel.parseErrorString (String c s)); simpl;
        intros [= <-]; rewrite lookup_insert_eq; intuition (discriminate || congruence).
  - simpl. intros [= <-]. rewrite lookup_insert_eq. intuition (discriminate || congruence).
  - simpl. intros [= <-]. rewrite lookup_insert_eq. intuition (discriminate || congruence).
  - simpl. intros [= <-]. rewrite lookup_insert_eq. intuition (discriminate || congruence).
Qed.

(** The forms of the error record in a result. *)
Lemma deserializeStep_result_error (w r : gmap string value) :
  WorldVercel.deserializeStep w = Ok r →
  r !! "errorRef" = None
  ∧ ( r !! "error" = None
      ∨ ∃ e, r !! "error" = Some (JObject e)
          ∧ ( (∃ m, e = {["message" := m]} ∧ m ≠ JUndefined)
              ∨ (∃ m stack code,
                   e = WorldVercel.errorRecord m stack code ∧ m ≠ JUndefined) ) ).
Proof.
  intros Hr. split.
  { destruct (deserializeStep_cases w) as [Hw|[e Hw]];
      rewrite Hw in Hr; injection Hr as <-.
    - by rewrite lookup_delete_eq.
    - rewrite lookup_insert_ne, lookup_delete_eq; done. }
  revert Hr. unfold WorldVercel.deserializeStep. cbv zeta.
  set (rest := delete "errorRef" (delete "error" w)).
  assert (rest !! "error" = None) as Hrest.
  { unfold rest. by rewrite lookup_delete_ne, lookup_delete_eq. }
  destruct (truthy _); [| intros [= <-]; by left].
  destruct (field w "error" ?? field w "errorRef") as [| |b|x|s|bs|vs|o];
    simpl; try (intros [= <-]; by left).
  - unfold try_catch.
    destruct (WorldVercel.parseErrorString s) as [e|] eqn:He; simpl;
      intros [= <-]; right; rewrite lookup_insert_eq.
    + exists e. split; [done |].
      destruct (parseErrorString_cases _ _ He)
        as [[str ->]|(parsed & m & stack & code & _ & _ & Hdef & ->)].
      * left. eauto.
      * right. eauto 6.
    + eexists. split; [done |]. left. eauto.
  - intros [= <-]. right. rewrite lookup_insert_eq.
    eexists. split; [done |]. right. eauto 6.
  - intros [= <-]. right. rewrite lookup_insert_eq.
    eexists. split; [done |]. right. eauto 6.
  - intros [= <-]. right. rewrite lookup_insert_eq.
    eexists. split; [done |]. right.
    exists (field o "message" ?? JString "Unknown error"), (field o "stack"),
      (field o "code").
    split; [done |]. by destruct (field o "message").
Qed.

(** X5. Decoding a decoded step again keeps its shape, as long as the
    message of its error is not [null] (a second decoding turns a [null]
    message into ["Unknown error"]). *)
Theorem deserializeStep_twice (w r : gmap string value) :
  WorldVercel.deserializeStep w = Ok r →
  (∀ e, r !! "error" = Some (JObject e) → field e "message" ≠ JNull) →
  ∃ r', WorldVercel.deserializeStep r = Ok r'
        ∧ prune_record r' = prune_record r.
Proof.
  intros Hr Hnull.
  destruct (deserializeStep_result_error w r Hr) as [Href Herr].
  assert (field r "errorRef" = JUndefined) as HrefU
    by (unfold field; by rewrite Href).
  destruct Herr as [Herr|(e & Herr & He)].
  - assert (field r "error" = JUndefined) as HerrU
      by (unfold field; by rewrite Herr).
    rewrite deserializeStep_falsy by (by rewrite HerrU, HrefU).
    eexists. split; [done |]. apply same_shape. intros k.
    destruct (decide (k = "errorRef")) as [->|Hk1].
    { by rewrite field_delete_eq, HrefU. }
    rewrite field_delete_ne by done.
    destruct (decide (k = "error")) as [->|Hk2].
    { by rewrite field_delete_eq, HerrU. }
    by rewrite field_delete_ne.
  - assert (field r "error" = JObject e) as HerrO
      by (unfold field; by rewrite Herr).
    specialize (Hnull e Herr).
    unfold WorldVercel.deserializeStep. cbv zeta. rewrite HerrO. simpl.
    eexists. split; [done |]. apply same_shape. intros k.
    destruct (decide (k = "error")) as [->|Hk1].
    + rewrite field_insert_eq, HerrO. simpl. f_equal.
      apply same_shape. intros k. rewrite field_errorRecord.
      destruct He as [(m & -> & Hm)|(m & stack & code & -> & Hm)].
      * unfold field. repeat case_decide; subst; simplify_map_eq; try done.
        by destruct m.
      * rewrite !field_errorRecord. simpl in *.
        rewrite field_errorRecord in Hnull. simpl in Hnull.
        repeat case_decide; subst; try done.
        by destruct m.
    + rewrite field_insert_ne by done.
      destruct (decide (k = "errorRef")) as [->|Hk2].
      { by rewrite field_delete_eq, HrefU. }
      by rewrite !field_delete_ne.
Qed.

End MoreDeserializeStep.

Section MoreFilterStepData.
Context `{!JsRuntime}.

(** X6. The remote backend's [filterStepData] never returns an
    [errorRef]; under ['none'] it returns no [inputRef] and no
    [outputRef] either, under ['all'] it returns them as they came. *)
Theorem filterStepData_discards_refs (step : gmap string value) :
  ( ∃ r, WorldVercel.filterStepData step RNone = Ok r
         ∧ r !! "inputRef" = None ∧ r !! "outputRef" = None
         ∧ r !! "errorRef" = None )
  ∧ ( ∃ r, WorldVercel.filterStepData step RAll = Ok r
           ∧ r !! "inputRef" = step !! "inputRef"
           ∧ r !! "outputRef" = step !! "outputRef"
           ∧ r !! "errorRef" = None ).
Proof.
  split.
  - destruct (filterStepData_none step) as (d & Hd & ->).
    eexists. split; [done |].
    destruct (deserializeStep_result_error _ _ Hd) as [Href _].
    rewrite !lookup_insert_ne by done.
    rewrite !(deserializeStep_frame _ _ _ Hd) by done.
    rewrite lookup_delete_ne, lookup_delete_eq by done.
    by rewrite lookup_delete_eq.
  - destruct (deserializeStep_total step) as [r Hr]. exists r.
    split; [done |].
    destruct (deserializeStep_result_error _ _ Hr) as [Href _].
    rewrite !(deserializeStep_frame _ _ _ Hr) by done. done.
Qed.

End MoreFilterStepData.

(* ===================================================================== *)
(** * Further properties of the filesystem backend's [steps.get]          *)
(* ===================================================================== *)

Section MoreStepsGet.
Import WorldLocal.
Variable DEFAULT_RESOLVE_DATA_OPTION : ResolveData.

Lemma append_assoc (a b c : string) : (a +:+ b) +:+ c = a +:+ (b +:+ c).
Proof.
  induction a as [|x a IH]; [done |].
  change (String x ((a +:+ b) +:+ c) = String x (a +:+ b +:+ c)).
  by rewrite IH.
Qed.

(** With a run id that is not empty, [steps.get] reads the file of the
    composite key. *)
Lemma get_with_run_id (dir : list (string * gmap string value))
    (runId stepId : string) (params : option GetStepParams) :
  runId ≠ "" →
  get DEFAULT_RESOLVE_DATA_OPTION dir (Some runId) stepId params
  = match readJSON dir (runId +:+ "-" +:+ stepId) with
    | None =>
        Throw (Error ("Step " +:+ stepId +:+ " in run " +:+ runId +:+ " not found"))
    | Some step =>
        Ok (Filters.filterStepData step
              (resolveData_of DEFAULT_RESOLVE_DATA_OPTION params))
    end.
Proof.
  intros Hr. unfold get.
  assert (no_id (Some runId) = false) as -> by (by destruct runId).
  done.
Qed.

(** X7. The composite key does not tell ids with dashes apart: run
    [r-s] with step [t] and run [r] with step [s-t] are the same file,
    so [steps.get] succeeds for the one exactly when it does for the
    other, with the same record. *)
Theorem get_composite_key_collision
    (dir : list (string * gmap string value)) (r s t : string)
    (params : option GetStepParams) (x : gmap string value) :
  r ≠ "" →
  get DEFAULT_RESOLVE_DATA_OPTION dir (Some (r +:+ "-" +:+ s)) t params = Ok x
  ↔ get DEFAULT_RESOLVE_DATA_OPTION dir (Some r) (s +:+ "-" +:+ t) params = Ok x.
Proof.
  intros Hr.
  rewrite (get_with_run_id dir (r +:+ "-" +:+ s) t params) by (by destruct r).
  rewrite (get_with_run_id dir r (s +:+ "-" +:+ t) params) by done.
  rewrite (append_assoc r ("-" +:+ s) ("-" +:+ t)).
  change (("-" +:+ s) +:+ "-" +:+ t) with ("-" +:+ s +:+ "-" +:+ t).
  by destruct (readJSON dir _).
Qed.

Lemma readJSON_cons (name fileId : string) (step : gmap string value)
    (dir : list (string * gmap string value)) :
  readJSON ((name, step) :: dir) fileId
  = if String.eqb name fileId then Some step else readJSON dir fileId.
Proof. unfold readJSON. simpl. by destruct (String.eqb name fileId). Qed.

Lemma readJSON_insert_other (dir1 dir2 : list (string * gmap string value))
    (name fileId : string) (step : gmap string value) :
  name ≠ fileId →
  readJSON (dir1 ++ (name, step) :: dir2) fileId = readJSON (dir1 ++ dir2) fileId.
Proof.
  intros Hne. induction dir1 as [|[n x] dir1 IH]; simpl.
  - rewrite readJSON_cons.
    by destruct (String.eqb_spec name fileId).
  - rewrite !readJSON_cons. by rewrite IH.
Qed.

(** X9. With a run id, and with ids that have no path separator and no
    NUL, so that [path.join] leaves the file name [{runId}-{stepId}.json]
    as it is, [steps.get] reads one file and no other: a file of another
    name, put anywhere into the directory, changes neither the record
    returned nor the error thrown. *)
Theorem get_ignores_other_files
    (dir1 dir2 : list (string * gmap string value)) (name : string)
    (other : gmap string value) (runId stepId : string)
    (params : option GetStepParams) :
  plain_id runId = true → plain_id stepId = true →
  runId ≠ "" → name ≠ runId +:+ "-" +:+ stepId →
  get DEFAULT_RESOLVE_DATA_OPTION (dir1 ++ (name, other) :: dir2)
    (Some runId) stepId params
  = get DEFAULT_RESOLVE_DATA_OPTION (dir1 ++ dir2) (Some runId) stepId params.
Proof.
  intros _ _ Hr Hname. rewrite !get_with_run_id by done.
  by rewrite readJSON_insert_other.
Qed.

(** A tail of [s] is [suffix]: [s] is some [p] followed by [suffix]. *)
Lemma endsWith_inv (s suffix : string) :
  endsWith s suffix = true → ∃ p, s = p +:+ suffix.
Proof.
  induction s as [|c s IH]; cbn [endsWith].
  - rewrite orb_false_r. intros ->%String.eqb_eq. by exists "".
  - intros [->%String.eqb_eq|Htail]%orb_prop.
    + by exists "".
    + destruct (IH Htail) as [p ->]. by exists (String c p).
Qed.

Lemma dash_free_last_segment (s : string) :
  dash_free s = true → last_segment s = s.
Proof.
  destruct s as [|c s]; simpl; [done |].
  intros [Hc Hs]%andb_prop. apply negb_true_iff in Hc. by rewrite Hc, Hs.
Qed.

Lemma dash_free_app_dash (p s : string) : dash_free (p +:+ "-" +:+ s) = false.
Proof.
  induction p as [|c p IH]; simpl; [done |].
  rewrite IH. apply andb_false_r.
Qed.

Lemma last_segment_app (p s : string) :
  dash_free s = true → last_segment (p +:+ "-" +:+ s) = s.
Proof.
  intros Hs. induction p as [|c p IH].
  - simpl. by apply dash_free_last_segment.
  - change (String c p +:+ "-" +:+ s) with (String c (p +:+ "-" +:+ s)).
    cbn [last_segment]. rewrite dash_free_app_dash, IH.
    by destruct (Ascii.eqb c "-").
Qed.

(** A name [r-s] with a dash-free [s] ends in [-t], [t] dash-free, only
    when [s] is [t]. *)
Lemma endsWith_step_id (r s t : string) :
  dash_free s = true → dash_free t = true →
  endsWith (r +:+ "-" +:+ s) ("-" +:+ t) = true → s = t.
Proof.
  intros Hs Ht [p Hp]%endsWith_inv.
  rewrite <- (last_segment_app r s Hs), Hp.
  by apply last_segment_app.
Qed.

(** Dash-free run ids make the composite key determine both ids. *)
Lemma composite_key_inj (r r' s s' : string) :
  dash_free r = true → dash_free r' = true →
  r +:+ "-" +:+ s = r' +:+ "-" +:+ s' → r = r' ∧ s = s'.
Proof.
  intros Hr Hr' Heq.
  assert (r = r') as <-.
  { rewrite <- (split_head_app r s Hr), Heq. by apply split_head_app. }
  split; [done |]. apply String.app_inj in Heq. by injection Heq.
Qed.

(** In a directory written from steps with dash-free ids and step ids
    all different, the file of a step is the first, and the only, one
    with a name ending in [-{stepId}], and reading it gives the step. *)
Lemma stored_step_found
    (store : list (string * string * gmap string value))
    (runId stepId : string) (step : gmap string value) :
  Forall (λ t, dash_free t.1.1 = true ∧ dash_free t.1.2 = true) store →
  NoDup ((λ t, t.1.2) <$> store) →
  (runId, stepId, step) ∈ store →
  let dir := (λ t, (t.1.1 +:+ "-" +:+ t.1.2, t.2)) <$> store in
  List.find (λ fileId, endsWith fileId ("-" +:+ stepId)) (listJSONFiles dir)
  = Some (runId +:+ "-" +:+ stepId)
  ∧ readJSON dir (runId +:+ "-" +:+ stepId) = Some step.
Proof.
  intros Hwf Hnodup Hin. cbv zeta.
  assert (dash_free runId = true ∧ dash_free stepId = true) as [Hrun Hstep].
  { rewrite Forall_forall in Hwf. exact (Hwf _ Hin). }
  induction store as [|[[r s] x] store IH]; [by apply elem_of_nil in Hin |].
  apply Forall_cons in Hwf as [[Hr Hs] Hwf]. simpl in Hr, Hs.
  rewrite fmap_cons in Hnodup. apply NoDup_cons in Hnodup as [Hfresh Hnodup].
  simpl in Hfresh.
  rewrite fmap_cons. unfold listJSONFiles. rewrite fmap_cons.
  rewrite readJSON_cons. cbn [List.find fst snd].
  apply elem_of_cons in Hin as [[= <- <- <-]|Hin].
  - rewrite endsWith_app, String.eqb_refl. done.
  - assert (s ≠ stepId) as Hne.
    { intros ->. apply Hfresh. apply list_elem_of_fmap.
      by exists (runId, stepId, step). }
    destruct (endsWith (r +:+ "-" +:+ s) ("-" +:+ stepId)) eqn:Hends.
    { by apply endsWith_step_id in Hends. }
    destruct (String.eqb_spec (r +:+ "-" +:+ s) (runId +:+ "-" +:+ stepId))
      as [Heq|_].
    { by apply composite_key_inj in Heq as [_ ?]. }
    by apply IH.
Qed.

(** X8. When the directory holds the steps of a store whose run ids and
    step ids have no dash and whose step ids are all different, every
    stored step is returned by [steps.get] with its run id and, the
    same, by [steps.get] without a run id: its projection under the
    [resolveData] asked for. *)
Theorem get_finds_stored_step
    (store : list (string * string * gmap string value))
    (runId stepId : string) (step : gmap string value)
    (params : option GetStepParams) :
  Forall (λ t, dash_free t.1.1 = true ∧ dash_free t.1.2 = true) store →
  NoDup ((λ t, t.1.2) <$> store) →
  (runId, stepId, step) ∈ store →
  let dir := (λ t, (t.1.1 +:+ "-" +:+ t.1.2, t.2)) <$> store in
  let projection :=
    Filters.filterStepData step
      (resolveData_of DEFAULT_RESOLVE_DATA_OPTION params) in
  get DEFAULT_RESOLVE_DATA_OPTION dir (Some runId) stepId params = Ok projection
  ∧ get DEFAULT_RESOLVE_DATA_OPTION dir None stepId params = Ok projection.
Proof.
  intros Hwf Hnodup Hin dir projection.
  destruct (stored_step_found store runId stepId step Hwf Hnodup Hin)
    as [Hfind Hread]. fold dir in Hfind, Hread.
  assert (dash_free runId = true) as Hrun.
  { rewrite Forall_forall in Hwf. exact (proj1 (Hwf _ Hin)). }
  assert (get DEFAULT_RESOLVE_DATA_OPTION dir None stepId params = Ok projection)
    as Hnone.
  { unfold get. simpl no_id. cbv iota.
    rewrite (findRunId_found dir runId stepId Hrun Hfind). simpl.
    by rewrite Hread. }
  split; [| done]. unfold get.
  destruct (no_id (Some runId)).
  - rewrite (findRunId_found dir runId stepId Hrun Hfind). simpl.
    by rewrite Hread.
  - simpl. by rewrite Hread.
Qed.

End MoreStepsGet.

(* ===================================================================== *)
(** * The filesystem backend's [steps.list]                               *)
(* ===================================================================== *)

(** X10. [steps.list] issues the same query whatever [resolveData] is,
    and under ['none'] returns the page it returns under ['all'] (the
    page of [paginatedFileSystemQuery], unchanged) with every step
    passed through the shared [filterStepData]: the same steps in the
    same order, the same cursor.  A query that fails, fails the list. *)
Theorem steps_list_none_projects_all {FS : Type}
    (DEFAULT_RESOLVE_DATA_OPTION : ResolveData)
    (path_join : string → string → string)
    (getObjectCreatedAt : string → gmap string value → value)
    (paginatedFileSystemQuery :
       WorldLocalList.Query → @Remote.Async FS (PaginatedResponse (gmap string value)))
    (basedir : string) (runId : option string)
    (pagination : option PaginationOptions) (fs : FS) :
  let list :=
    WorldLocalList.steps_list DEFAULT_RESOLVE_DATA_OPTION path_join
      getObjectCreatedAt paginatedFileSystemQuery basedir in
  let params rd :=
    {| WorldLocalList.runId := runId; WorldLocalList.pagination := pagination;
       WorldLocalList.resolveData := Some rd |} in
  let query :=
    WorldLocalList.listQuery path_join getObjectCreatedAt basedir (params RAll) in
  list (params RAll) fs = paginatedFileSystemQuery query fs
  ∧ match paginatedFileSystemQuery query fs with
    | (Ok page, fs') =>
        list (params RNone) fs
        = (Ok {| data := (λ step, Filters.filterStepData step RNone) <$> data page;
                 page_info := page_info page |}, fs')
    | (Throw e, fs') => list (params RNone) fs = (Throw e, fs')
    end.
Proof.
  intros list params query.
  unfold list, WorldLocalList.steps_list, VercelSteps.await. simpl.
  change (WorldLocalList.listQuery path_join getObjectCreatedAt basedir
            (params RNone)) with query.
  fold query.
  destruct (paginatedFileSystemQuery query fs) as [[page|e] fs']; [| done].
  split; [| done]. by destruct page.
Qed.

(* ===================================================================== *)
(** * The requests of the remote backend                                  *)
(* ===================================================================== *)

Section Requests.
Context {World APIConfig : Type}.
Context `{!JsRuntime}.
Variable DEFAULT_RESOLVE_DATA_OPTION : ResolveData.
Variable makeRequest :
  ∀ schema : VercelSteps.WireSchema,
    @VercelSteps.Request APIConfig → @Remote.Async World (VercelSteps.Response schema).
Variable serializeError : value → value.

Lemma filterStepData_total (step : gmap string value) (rd : ResolveData) :
  ∃ r, WorldVercel.filterStepData step rd = Ok r.
Proof.
  destruct rd.
  - destruct (filterStepData_none step) as (d & _ & ->). eauto.
  - apply deserializeStep_total.
Qed.

Lemma filterSteps_total (steps : list (gmap string value)) (rd : ResolveData) :
  ∃ filtered, VercelSteps.filterSteps steps rd = Ok filtered
    ∧ Forall2 (λ step r, WorldVercel.filterStepData step rd = Ok r) steps filtered.
Proof.
  induction steps as [|step steps (filtered & Hfiltered & Hall)]; simpl.
  - exists []. split; [done | constructor].
  - destruct (filterStepData_total step rd) as [r Hr].
    exists (r :: filtered). rewrite Hr. simpl. rewrite Hfiltered. simpl.
    split; [done |]. by constructor.
Qed.

(** The endpoint of [getStep], with its query string written out. *)
Lemma getStepEndpoint_eq (runId : option string) (stepId : string)
    (resolveData : ResolveData) :
  VercelSteps.getStepEndpoint runId stepId
    (VercelSteps.remoteRefBehavior_of resolveData)
  = if WorldLocal.no_id runId
    then "/v2/steps/" +:+ stepId +:+ "?remoteRefBehavior="
         +:+ match resolveData with RNone => "lazy" | RAll => "resolve" end
    else "/v2/runs/" +:+ default "" runId +:+ "/steps/" +:+ stepId
         +:+ "?remoteRefBehavior="
         +:+ match resolveData with RNone => "lazy" | RAll => "resolve" end.
Proof.
  unfold VercelSteps.getStepEndpoint.
  by destruct resolveData, (WorldLocal.no_id runId).
Qed.

(** X11. [getStep] makes one [GET] request: to
    [/v2/runs/{runId}/steps/{stepId}] when a run id is given and not
    empty, to [/v2/steps/{stepId}] otherwise, always with the query
    [remoteRefBehavior], [lazy] and the schema with refs for ['none'],
    [resolve] and the plain wire schema for ['all'].  It rejects exactly
    when the request does, with the request's error; otherwise it
    resolves with [filterStepData] of the response. *)
Theorem getStep_one_request (runId : option string) (stepId : string)
    (params : option WorldLocal.GetStepParams) (config : option APIConfig)
    (w : World) :
  let resolveData :=
    default DEFAULT_RESOLVE_DATA_OPTION (params ≫= WorldLocal.resolveData) in
  let behavior := match resolveData with RNone => "lazy" | RAll => "resolve" end in
  let request :=
    {| VercelSteps.endpoint :=
         if WorldLocal.no_id runId
         then "/v2/steps/" +:+ stepId +:+ "?remoteRefBehavior=" +:+ behavior
         else "/v2/runs/" +:+ default "" runId +:+ "/steps/" +:+ stepId
              +:+ "?remoteRefBehavior=" +:+ behavior;
       VercelSteps.method := "GET"; VercelSteps.body := None;
       VercelSteps.config := config |} in
  let response :=
    match resolveData with
    | RNone => makeRequest VercelSteps.StepWireWithRefs request
    | RAll => makeRequest VercelSteps.StepWire request
    end in
  match response w with
  | (Ok step, w') =>
      ∃ r, WorldVercel.filterStepData step resolveData = Ok r
           ∧ VercelSteps.getStep DEFAULT_RESOLVE_DATA_OPTION makeRequest
               runId stepId params config w = (Ok r, w')
  | (Throw e, w') =>
      VercelSteps.getStep DEFAULT_RESOLVE_DATA_OPTION makeRequest
        runId stepId params config w = (Throw e, w')
  end.
Proof.
  intros resolveData behavior request response.
  unfold VercelSteps.getStep, VercelSteps.await. cbv zeta.
  fold resolveData. rewrite getStepEndpoint_eq.
  fold behavior. fold request.
  unfold response. clearbody request. clearbody resolveData.
  destruct resolveData; cbn [VercelSteps.remoteRefBehavior_of].
  - destruct (makeRequest VercelSteps.StepWireWithRefs request w)
      as [[step|e] w']; [| done].
    destruct (filterStepData_total step RNone) as [r Hr].
    exists r. split; [done |]. unfold VercelSteps.settle. by rewrite Hr.
  - destruct (makeRequest VercelSteps.StepWire request w)
      as [[step|e] w']; [| done].
    destruct (filterStepData_total step RAll) as [r Hr].
    exists r. split; [done |]. unfold VercelSteps.settle. by rewrite Hr.
Qed.

(** X12. [listWorkflowRunSteps] makes one [GET] request, with the schema
    with refs for ['none'] and the plain one for ['all'].  It rejects
    exactly when the request does; otherwise it resolves with the page
    of the response, its other properties unchanged, and in [data], in
    the same order and number, [filterStepData] of each step. *)
Theorem listWorkflowRunSteps_one_request
    (params : VercelSteps.ListWorkflowRunStepsParams)
    (config : option APIConfig) (w : World) :
  let resolveData :=
    default DEFAULT_RESOLVE_DATA_OPTION (VercelSteps.resolveData params) in
  let request :=
    {| VercelSteps.endpoint :=
         VercelSteps.listEndpoint DEFAULT_RESOLVE_DATA_OPTION params;
       VercelSteps.method := "GET"; VercelSteps.body := None;
       VercelSteps.config := config |} in
  let response :=
    match resolveData with
    | RNone => makeRequest (VercelSteps.Paginated VercelSteps.StepWireWithRefs) request
    | RAll => makeRequest (VercelSteps.Paginated VercelSteps.StepWire) request
    end in
  match response w with
  | (Ok page, w') =>
      ∃ steps,
        Forall2 (λ step r, WorldVercel.filterStepData step resolveData = Ok r)
          (data page) steps
        ∧ VercelSteps.listWorkflowRunSteps DEFAULT_RESOLVE_DATA_OPTION makeRequest
            params config w
          = (Ok {| data := steps; page_info := page_info page |}, w')
  | (Throw e, w') =>
      VercelSteps.listWorkflowRunSteps DEFAULT_RESOLVE_DATA_OPTION makeRequest
        params config w = (Throw e, w')
  end.
Proof.
  intros resolveData request response.
  unfold VercelSteps.listWorkflowRunSteps, VercelSteps.await. cbv zeta.
  fold resolveData. fold request.
  unfold response. clearbody request. clearbody resolveData.
  destruct resolveData; cbn [VercelSteps.remoteRefBehavior_of].
  - destruct (makeRequest (VercelSteps.Paginated VercelSteps.StepWireWithRefs)
                request w) as [[page|e] w']; [| done].
    destruct (filterSteps_total (data page) RNone) as (steps & Hsteps & Hall).
    exists steps. split; [done |]. unfold VercelSteps.settle. by rewrite Hsteps.
  - destruct (makeRequest (VercelSteps.Paginated VercelSteps.StepWire)
                request w) as [[page|e] w']; [| done].
    destruct (filterSteps_total (data page) RAll) as (steps & Hsteps & Hall).
    exists steps. split; [done |]. unfold VercelSteps.settle. by rewrite Hsteps.
Qed.

(** X13. [createStep] posts the data to [/v2/runs/{runId}/steps], and
    [updateStep] puts [serializeError(data)] to
    [/v2/runs/{runId}/steps/{stepId}], both with the plain wire schema.
    Each rejects exactly when its request does, and otherwise resolves
    with [deserializeStep] of the response, a step without
    [errorRef]. *)
Theorem createStep_updateStep_one_request
    (runId stepId : string) (data : value) (config : option APIConfig)
    (w : World) :
  let post :=
    {| VercelSteps.endpoint := "/v2/runs/" +:+ runId +:+ "/steps";
       VercelSteps.method := "POST"; VercelSteps.body := Some data;
       VercelSteps.config := config |} in
  let put :=
    {| VercelSteps.endpoint := "/v2/runs/" +:+ runId +:+ "/steps/" +:+ stepId;
       VercelSteps.method := "PUT"; VercelSteps.body := Some (serializeError data);
       VercelSteps.config := config |} in
  match makeRequest VercelSteps.StepWire post w with
  | (Ok step, w') =>
      ∃ r, WorldVercel.deserializeStep step = Ok r ∧ r !! "errorRef" = None
           ∧ VercelSteps.createStep makeRequest runId data config w = (Ok r, w')
  | (Throw e, w') =>
      VercelSteps.createStep makeRequest runId data config w = (Throw e, w')
  end
  ∧ match makeRequest VercelSteps.StepWire put w with
    | (Ok step, w') =>
        ∃ r, WorldVercel.deserializeStep step = Ok r ∧ r !! "errorRef" = None
             ∧ VercelSteps.updateStep makeRequest serializeError
                 runId stepId data config w = (Ok r, w')
    | (Throw e, w') =>
        VercelSteps.updateStep makeRequest serializeError
          runId stepId data config w = (Throw e, w')
    end.
Proof.
  intros post put.
  unfold VercelSteps.createStep, VercelSteps.updateStep, VercelSteps.await.
  cbv zeta. fold post. fold put. split.
  - destruct (makeRequest VercelSteps.StepWire post w) as [[step|e] w']; [| done].
    destruct (deserializeStep_total step) as [r Hr]. exists r.
    split; [done |].
    split; [exact (proj1 (deserializeStep_result_error _ _ Hr)) |].
    unfold VercelSteps.settle. by rewrite Hr.
  - destruct (makeRequest VercelSteps.StepWire put w) as [[step|e] w']; [| done].
    destruct (deserializeStep_total step) as [r Hr]. exists r.
    split; [done |].
    split; [exact (proj1 (deserializeStep_result_error _ _ Hr)) |].
    unfold VercelSteps.settle. by rewrite Hr.
Qed.

End Requests.

(* ===================================================================== *)
(** * The query string of [listWorkflowRunSteps]                          *)
(* ===================================================================== *)

Section QueryString.
Import URLSearchParams.

Local Ltac each_byte c :=
  destruct c as [[] [] [] [] [] [] [] []].

(** An encoded byte decodes to the byte. *)
Lemma decode_encode_byte (c : ascii) (rest : string) :
  decode (encode_byte c +:+ rest) = String c (decode rest).
Proof. each_byte c; reflexivity. Qed.

Lemma decode_encode (s : string) : decode (encode s) = s.
Proof.
  induction s as [|c s IH]; [done |].
  cbn [encode]. rewrite decode_encode_byte. by rewrite IH.
Qed.

Lemma split_on_char (a : ascii) (rest piece : string) (pieces : list string) :
  Ascii.eqb a "&" = false →
  split_on "&" rest = piece :: pieces →
  split_on "&" (String a rest) = String a piece :: pieces.
Proof. intros Ha Hrest. cbn [split_on]. by rewrite Ha, Hrest. Qed.

Lemma split_pair_char (a : ascii) (rest : string) :
  Ascii.eqb a "=" = false →
  split_pair (String a rest)
  = (String a (split_pair rest).1, (split_pair rest).2).
Proof.
  intros Ha. cbn [split_pair]. rewrite Ha. by destruct (split_pair rest).
Qed.

(** An encoded byte has no [&] and no [=]. *)
Lemma split_on_encode_byte (c : ascii) (rest piece : string) (pieces : list string) :
  split_on "&" rest = piece :: pieces →
  split_on "&" (encode_byte c +:+ rest) = (encode_byte c +:+ piece) :: pieces.
Proof.
  intros Hrest. each_byte c; cbv -[split_on];
    repeat (apply split_on_char; [reflexivity |]); exact Hrest.
Qed.

Lemma split_pair_encode_byte (c : ascii) (rest : string) :
  split_pair (encode_byte c +:+ rest)
  = (encode_byte c +:+ (split_pair rest).1, (split_pair rest).2).
Proof.
  each_byte c; cbv -[split_pair];
    repeat (rewrite split_pair_char by reflexivity; cbn [fst snd]);
    reflexivity.
Qed.

Lemma app_encode_assoc (c : ascii) (a b : string) :
  (encode_byte c +:+ a) +:+ b = encode_byte c +:+ (a +:+ b).
Proof. each_byte c; reflexivity. Qed.

Lemma split_on_encode (s rest piece : string) (pieces : list string) :
  split_on "&" rest = piece :: pieces →
  split_on "&" (encode s +:+ rest) = (encode s +:+ piece) :: pieces.
Proof.
  intros Hrest. induction s as [|c s IH]; [done |].
  cbn [encode]. rewrite !app_encode_assoc.
  by apply split_on_encode_byte.
Qed.

Lemma split_pair_encode (s rest : string) :
  split_pair (encode s +:+ rest)
  = (encode s +:+ (split_pair rest).1, (split_pair rest).2).
Proof.
  induction s as [|c s IH].
  { change (encode "" +:+ rest) with rest. by destruct (split_pair rest). }
  cbn [encode]. rewrite !app_encode_assoc.
  rewrite split_pair_encode_byte, IH. done.
Qed.

Lemma append_nil_r (s : string) : s +:+ "" = s.
Proof.
  induction s as [|c s IH]; [done |].
  change (String c (s +:+ "") = String c s). by rewrite IH.
Qed.

(** A serialized pair is one piece, and it is cut where the code put
    the [=]. *)
Lemma split_on_pair (k v : string) :
  split_on "&" (encode k +:+ "=" +:+ encode v) = [encode k +:+ "=" +:+ encode v].
Proof.
  apply split_on_encode.
  change ("=" +:+ encode v) with (String "=" (encode v)).
  cbn [split_on Ascii.eqb Bool.eqb].
  rewrite <- (append_nil_r (encode v)) at 1.
  rewrite (split_on_encode v "" "" []) by done.
  by rewrite append_nil_r.
Qed.

Lemma split_pair_pair (k v : string) :
  split_pair (encode k +:+ "=" +:+ encode v) = (encode k, encode v).
Proof.
  rewrite split_pair_encode.
  change ("=" +:+ encode v) with (String "=" (encode v)).
  cbn [split_pair Ascii.eqb Bool.eqb fst snd].
  by rewrite append_nil_r.
Qed.

(** A piece with no [&], then [&], then more: the piece is cut off. *)
Lemma split_on_piece_more (p rest : string) :
  split_on "&" p = [p] →
  split_on "&" (p +:+ "&" +:+ rest) = p :: split_on "&" rest.
Proof.
  induction p as [|c p IH]; [intros _; reflexivity |].
  change (String c p +:+ "&" +:+ rest) with (String c (p +:+ "&" +:+ rest)).
  cbn [split_on]. destruct (Ascii.eqb c "&"); [intros [=] |].
  destruct (split_on "&" p) as [|q qs] eqn:Hp; [| intros [= -> ->]; by rewrite IH].
  intros [= <-]. cbn in Hp. discriminate Hp.
Qed.

Lemma pair_nonempty (k v : string) :
  String.eqb (encode k +:+ "=" +:+ encode v) "" = false.
Proof. by destruct (encode k). Qed.

Lemma join_cons (x : string) (l : list string) :
  l ≠ [] → JsRef.join "&" (x :: l) = x +:+ "&" +:+ JsRef.join "&" l.
Proof. by destruct l. Qed.

(** The pieces of a serialized list are its serialized pairs. *)
Lemma split_toString (params : list (string * string)) :
  List.filter (λ piece, negb (String.eqb piece "")) (split_on "&" (toString params))
  = (λ kv, encode kv.1 +:+ "=" +:+ encode kv.2) <$> params.
Proof.
  unfold toString.
  induction params as [|[k v] params IH]; [done |].
  rewrite fmap_cons. cbn [fst snd].
  destruct params as [|kv' params].
  - cbn [fmap list_fmap JsRef.join]. rewrite split_on_pair.
    cbn [List.filter]. by rewrite pair_nonempty.
  - rewrite join_cons by done.
    rewrite split_on_piece_more by apply split_on_pair.
    cbn [List.filter]. rewrite pair_nonempty. cbn [negb].
    by rewrite IH.
Qed.

(** The parser undoes the serializer: the names and values come back,
    in order. *)
Lemma parse_toString (params : list (string * string)) :
  parse (toString params) = params.
Proof.
  unfold parse. rewrite split_toString.
  induction params as [|[k v] params IH]; [done |].
  rewrite !fmap_cons, IH. cbn [fst snd].
  by rewrite split_pair_pair, !decode_encode.
Qed.

(** An ASCII string is a USVString already. *)
Lemma to_usv_ascii (s : string) : is_ascii s = true → to_usv s = s.
Proof.
  induction s as [|c s IH]; [done |].
  cbn [is_ascii]. intros [Hc Hs]%andb_prop.
  assert (Ascii.eqb c "237" = false) as Hne.
  { destruct (Ascii.eqb_spec c "237") as [-> |]; [discriminate Hc | done]. }
  cbn [to_usv]. rewrite Hne. cbn [andb].
  rewrite (IH Hs). by destruct s as [|b1 [|b2 s]].
Qed.

Lemma is_ascii_app (s t : string) :
  is_ascii s = true → is_ascii t = true → is_ascii (s +:+ t) = true.
Proof.
  intros Hs Ht. induction s as [|c s IH]; [done |].
  cbn [is_ascii] in Hs. apply andb_prop in Hs as [Hc Hs].
  change (String c s +:+ t) with (String c (s +:+ t)).
  cbn [is_ascii]. by rewrite Hc, IH.
Qed.

Lemma is_ascii_substring (n m : nat) (s : string) :
  is_ascii s = true → is_ascii (substring n m s) = true.
Proof.
  revert n m. induction s as [|c s IH]; intros n m Hs.
  - by destruct n, m.
  - cbn [is_ascii] in Hs. apply andb_prop in Hs as [Hc Hs].
    destruct n as [|n]; [destruct m as [|m] |]; cbn [substring].
    + done.
    + cbn [is_ascii]. by rewrite Hc, IH.
    + by apply IH.
Qed.

Lemma is_ascii_zeros (n : nat) : is_ascii (JsRef.zeros n) = true.
Proof. induction n as [|n IH]; [done |]. cbn [JsRef.zeros is_ascii]. by rewrite IH. Qed.

Lemma is_ascii_pretty_N_go (x : N) (s : string) :
  is_ascii s = true → is_ascii (pretty_N_go x s) = true.
Proof.
  revert s. induction (N.lt_wf_0 x) as [x _ IH]; intros s Hs.
  destruct (decide (x = 0%N)) as [-> | Hx].
  - by rewrite pretty_N_go_0.
  - rewrite pretty_N_go_step by lia.
    apply IH; [apply N.div_lt; lia |].
    cbn [is_ascii]. rewrite Hs, andb_true_r.
    unfold pretty_N_char. by repeat case_match.
Qed.

Lemma is_ascii_pretty_N (x : N) : is_ascii (pretty x) = true.
Proof.
  unfold pretty, pretty_N. case_decide; [done |].
  by apply is_ascii_pretty_N_go.
Qed.

Lemma is_ascii_pretty_Z (x : Z) : is_ascii (pretty x) = true.
Proof.
  destruct x as [|p|p].
  - done.
  - apply (is_ascii_pretty_N (N.pos p)).
  - apply (is_ascii_app "-"); [done | apply (is_ascii_pretty_N (N.pos p))].
Qed.

Lemma is_ascii_format_decimal (ds : string) (n : Z) :
  is_ascii ds = true → is_ascii (JsRef.format_decimal ds n) = true.
Proof.
  intros Hds. unfold JsRef.format_decimal. cbv zeta.
  repeat case_match;
    repeat (first [ apply is_ascii_app | apply is_ascii_substring
                  | apply is_ascii_zeros | apply is_ascii_pretty_Z
                  | assumption | reflexivity ]).
Qed.

(** [Number::toString] writes ASCII. *)
Lemma is_ascii_number_to_string (x : spec_float) :
  is_ascii (JsRef.number_to_string x) = true.
Proof.
  destruct x as [neg | neg | | neg m e]; cbn [JsRef.number_to_string].
  - done.
  - by destruct neg.
  - done.
  - destruct (JsRef.ratio_of m e) as [num den].
    destruct (JsRef.shortest _ _ _ _ _ _) as [s q].
    destruct (JsRef.strip_zeros _ _ _) as [s' q'].
    apply is_ascii_app; [by destruct neg |].
    apply is_ascii_format_decimal, is_ascii_pretty_Z.
Qed.

(** With names all different, [set] appends; the cursor is converted
    to a USVString, the other values are ASCII. *)
Lemma listSearchParams_eq (pagination : option PaginationOptions)
    (behavior : VercelSteps.RemoteRefBehavior) :
  VercelSteps.listSearchParams pagination behavior
  = (match pagination ≫= cursor with
     | Some c => if truthy (JString c) then [("cursor", to_usv c)] else []
     | None => []
     end
     ++ match pagination ≫= limit with
        | Some l => if truthy (JNumber l)
                    then [("limit", JsRef.number_to_string l)] else []
        | None => []
        end
     ++ match pagination ≫= sortOrder with
        | Some o => [("sortOrder", SortOrder_string o)]
        | None => []
        end
     ++ [("remoteRefBehavior", VercelSteps.RemoteRefBehavior_string behavior)])%list.
Proof.
  unfold VercelSteps.listSearchParams. cbv zeta.
  destruct (pagination ≫= cursor) as [c|];
    [destruct (truthy (JString c)) |];
    (destruct (pagination ≫= limit) as [l|];
       [destruct (truthy (JNumber l)) |]);
    destruct (pagination ≫= sortOrder) as [[]|]; destruct behavior;
    unfold set; rewrite ?(to_usv_ascii (JsRef.number_to_string _))
      by apply is_ascii_number_to_string;
    reflexivity.
Qed.

(** X14. The endpoint of [listWorkflowRunSteps] is
    [/v2/runs/{runId}/steps?] followed by a query string which the
    form-urlencoded parser reads back as exactly these parameters, in
    this order: [cursor] if the cursor is not empty, with the cursor
    as the USVString it converts to (a high surrogate followed by a low
    one is their code point, every other surrogate is U+FFFD, all else
    is as it was); [limit] if the limit is neither [0] nor [NaN], in
    decimal; [sortOrder] if given; and always [remoteRefBehavior],
    [lazy] for ['none'] and [resolve] for ['all'].  The run id goes into
    the path as it is. *)
Theorem listEndpoint_query (DEFAULT_RESOLVE_DATA_OPTION : ResolveData)
    (params : VercelSteps.ListWorkflowRunStepsParams) :
  let resolveData :=
    default DEFAULT_RESOLVE_DATA_OPTION (VercelSteps.resolveData params) in
  let pagination := VercelSteps.pagination params in
  ∃ query,
    VercelSteps.listEndpoint DEFAULT_RESOLVE_DATA_OPTION params
    = "/v2/runs/" +:+ VercelSteps.runId params +:+ "/steps?" +:+ query
    ∧ parse query
      = (match pagination ≫= cursor with
         | Some c => if truthy (JString c) then [("cursor", to_usv c)] else []
         | None => []
         end
         ++ match pagination ≫= limit with
            | Some l => if truthy (JNumber l)
                        then [("limit", JsRef.number_to_string l)] else []
            | None => []
            end
         ++ match pagination ≫= sortOrder with
            | Some o => [("sortOrder", SortOrder_string o)]
            | None => []
            end
         ++ [("remoteRefBehavior",
              match resolveData with RNone => "lazy" | RAll => "resolve" end)])%list.
Proof.
  intros resolveData pagination.
  unfold VercelSteps.listEndpoint. cbv zeta. fold resolveData. fold pagination.
  set (searchParams :=
         VercelSteps.listSearchParams pagination
           (VercelSteps.remoteRefBehavior_of resolveData)).
  exists (toString searchParams).
  assert (parse (toString searchParams) = searchParams) as Hparse
    by apply parse_toString.
  split.
  - destruct (toString searchParams) as [|a q] eqn:Hq; [| done].
    exfalso. unfold searchParams in Hparse.
    rewrite listSearchParams_eq in Hparse.
    cbn in Hparse. symmetry in Hparse.
    by apply app_eq_nil in Hparse as [_ [_ [_ ?]%app_eq_nil]%app_eq_nil].
  - rewrite Hparse. unfold searchParams. rewrite listSearchParams_eq.
    by destruct resolveData.
Qed.

End QueryString.

(* ===================================================================== *)
(** * The schemas                                                         *)
(* ===================================================================== *)

(** X15. The schema for the binary form alone accepts the byte
    sequences, unchanged, and rejects every other value; what it accepts
    the combined [SerializedDataSchema] accepts with the same result, and
    it is the first option of that one. *)
Theorem binary_schema_extended (v : value) :
  ( Zod.safeParse SerializationBinary.SerializedDataSchema v = Zod.Success v
    ↔ ∃ bs, v = JBytes bs )
  ∧ ( Zod.safeParse SerializationBinary.SerializedDataSchema v = Zod.Failure
      ↔ ∀ bs, v ≠ JBytes bs )
  ∧ ( ∀ d, Zod.safeParse SerializationBinary.SerializedDataSchema v = Zod.Success d
           → Zod.safeParse Serialization.SerializedDataSchema v = Zod.Success d )
  ∧ Serialization.SerializedDataSchema
    = Zod.z_union [ SerializationBinary.SerializedDataSchema;
                    Serialization.LegacySerializedDataSchemaV1 ].
Proof.
  split; [| split; [| split]].
  - split.
    + destruct v; simpl; intros Hv; try done. eauto.
    + by intros [bs ->].
  - split.
    + destruct v; simpl; intros Hv bs'; done.
    + intros Hv. destruct v; try done. by destruct (Hv bs).
  - intros d. destruct v; simpl; intros Hd; done.
  - done.
Qed.

Section WireSchemaProperties.
Import WireSchemas.
Context `{!JsRuntime}.
Variable StepSchema : list (string * Schema).

Lemma accepts_object_field (shape : list (string * Schema))
    (o : gmap string value) (k : string) (s : Schema) :
  accepts (z_object shape) (JObject o) = true →
  In (k, s) shape → accepts s (field o k) = true.
Proof.
  induction shape as [|[k' s'] shape IH]; [done |].
  simpl. intros [Hhead Htail]%andb_prop [[= -> ->]|Hin]; [done |].
  by apply IH.
Qed.

Lemma error_in_StepWireSchema :
  In ("error", error_schema) (StepWireSchema_shape StepSchema).
Proof.
  unfold StepWireSchema_shape, extend. apply in_or_app. right. by left.
Qed.

Lemma error_in_StepWireWithRefsSchema :
  In ("error", error_schema) (StepWireWithRefsSchema_shape StepSchema).
Proof.
  unfold StepWireWithRefsSchema_shape, extend. apply in_or_app. left.
  unfold omit. apply filter_In. split; [| done].
  apply filter_In. split; [apply error_in_StepWireSchema | done].
Qed.

(** An object that the [error] schema accepts is a record with a string
    for [message] and, for [stack] and [code], a string or nothing. *)
Lemma error_schema_object (v : value) :
  accepts error_schema v = true → is_object_type v = true →
  ∃ e m, v = JObject e ∧ field e "message" = JString m
         ∧ is_optional_string (field e "stack") = true
         ∧ is_optional_string (field e "code") = true.
Proof.
  destruct v as [| |b|x|s|bs|vs|e]; try done. simpl.
  rewrite !orb_false_r, !andb_true_r.
  intros [Hm [Hstack Hcode]%andb_prop]%andb_prop _.
  destruct (field e "message") as [| | | |m| | |] eqn:Hmsg; try done.
  exists e, m. split; [done |]. split; [done |].
  split.
  - by destruct (field e "stack").
  - by destruct (field e "code").
Qed.

Lemma errorRecord_StructuredError (m : string) (stack code : value) :
  is_optional_string stack = true → is_optional_string code = true →
  is_StructuredError (JObject (WorldVercel.errorRecord (JString m) stack code))
  = true.
Proof.
  intros Hstack Hcode. simpl. rewrite !field_errorRecord. simpl.
  rewrite Hstack, Hcode. simpl. apply bool_decide_eq_true_2.
  intros k x. unfold WorldVercel.errorRecord.
  rewrite !lookup_insert. repeat case_decide; subst.
  - intros _. left. rewrite !elem_of_cons. tauto.
  - intros _. left. rewrite !elem_of_cons. tauto.
  - rewrite lookup_singleton. case_decide; [| done]. subst.
    intros _. left. rewrite !elem_of_cons. tauto.
Qed.

(** X16. A wire step that [StepWireSchema], or [StepWireWithRefsSchema],
    accepts, with an object for its inline [error]: [deserializeStep]
    gives it a [StructuredError], with a string for the message.  (For
    an inline string, and for [errorRef], the schemas check nothing of
    the message.) *)
Theorem accepted_object_error_is_structured (w : gmap string value) :
  accepts (StepWireSchema StepSchema) (JObject w) = true
  ∨ accepts (StepWireWithRefsSchema StepSchema) (JObject w) = true →
  is_object_type (field w "error") = true →
  ∃ r, WorldVercel.deserializeStep w = Ok r
       ∧ is_StructuredError (field r "error") = true.
Proof.
  intros Haccepts Hobject.
  assert (accepts error_schema (field w "error") = true) as Herror.
  { destruct Haccepts as [Hw|Hw].
    - exact (accepts_object_field _ _ _ _ Hw error_in_StepWireSchema).
    - exact (accepts_object_field _ _ _ _ Hw error_in_StepWireWithRefsSchema). }
  destruct (error_schema_object _ Herror Hobject)
    as (e & m & He & Hm & Hstack & Hcode).
  unfold WorldVercel.deserializeStep. cbv zeta. rewrite He. simpl.
  rewrite Hm. simpl. eexists. split; [done |].
  rewrite field_insert_eq. by apply errorRecord_StructuredError.
Qed.

End WireSchemaProperties.

(* ===================================================================== *)
(** * The further properties on the samples                               *)
(* ===================================================================== *)

Section MoreOnSamples.
Import Samples.

Lemma deserializeStep_error_absent_iff_witness :
  WorldVercel.deserializeStep (wire_with (JBool true)) = Ok wire_rest
  ∧ wire_rest !! "error" = None.
Proof.
  assert (WorldVercel.deserializeStep (wire_with (JBool true)) = Ok wire_rest)
    as Hr by (vm_compute; reflexivity).
  split; [done |].
  apply (proj2 (deserializeStep_error_absent_iff _ _ Hr)).
  right. split; [vm_compute; reflexivity |]. left. vm_compute; reflexivity.
Defined.

Lemma deserializeStep_twice_witness :
  let r := <["error" := JObject {["message" := JString "boom"]}]> wire_rest in
  WorldVercel.deserializeStep (wire_with (JString "boom")) = Ok r
  ∧ ∃ r', WorldVercel.deserializeStep r = Ok r'
          ∧ prune_record r' = prune_record r.
Proof.
  intros r.
  assert (WorldVercel.deserializeStep (wire_with (JString "boom")) = Ok r)
    as Hr by (vm_compute; reflexivity).
  split; [done |].
  apply (deserializeStep_twice _ _ Hr).
  intros e He.
  assert (r !! "error" = Some (JObject {["message" := JString "boom"]})) as Hr'
    by (vm_compute; reflexivity).
  rewrite Hr' in He. injection He as <-. vm_compute. discriminate.
Defined.

(** The wire error [{"message":null}]: the first decoding keeps the
    [null], a second one makes it ["Unknown error"]. *)
Example deserializeStep_twice_null_message :
  let text := "{" +:+ quote +:+ "message" +:+ quote +:+ ":null}" in
  ∃ r r', WorldVercel.deserializeStep (wire_with (JString text)) = Ok r
    ∧ field r "error"
      = JObject (WorldVercel.errorRecord JNull JUndefined JUndefined)
    ∧ WorldVercel.deserializeStep r = Ok r'
    ∧ field r' "error"
      = JObject (WorldVercel.errorRecord (JString "Unknown error")
                   JUndefined JUndefined).
Proof.
  eexists _, _. split; [vm_compute; reflexivity |].
  split; [vm_compute; reflexivity |].
  split; vm_compute; reflexivity.
Qed.

Lemma get_composite_key_collision_witness :
  "a" ≠ ""
  ∧ WorldLocal.get RAll steps_dir_dash (Some "a-b") "s1" None = Ok step_ab
  ∧ WorldLocal.get RAll steps_dir_dash (Some "a") "b-s1" None = Ok step_ab.
Proof.
  assert (WorldLocal.get RAll steps_dir_dash (Some ("a" +:+ "-" +:+ "b")) "s1" None
          = Ok step_ab) as Hget by (vm_compute; reflexivity).
  split; [done |]. split; [exact Hget |].
  apply (proj1 (get_composite_key_collision RAll steps_dir_dash "a" "b" "s1"
                  None step_ab ltac:(done))).
  exact Hget.
Defined.

Lemma get_finds_stored_step_witness :
  let store := [("r1", "s1", step_s1); ("r2", "s2", step_s2)] in
  Forall (λ t, dash_free t.1.1 = true ∧ dash_free t.1.2 = true) store
  ∧ NoDup ((λ t, t.1.2) <$> store)
  ∧ WorldLocal.get RAll steps_dir (Some "r2") "s2" None = Ok step_s2
  ∧ WorldLocal.get RAll steps_dir None "s2" None = Ok step_s2.
Proof.
  intros store.
  assert (Forall (λ t, dash_free t.1.1 = true ∧ dash_free t.1.2 = true) store)
    as Hwf by (repeat constructor).
  assert (NoDup ((λ t, t.1.2) <$> store)) as Hnodup.
  { simpl. repeat constructor; rewrite ?elem_of_cons, ?elem_of_nil;
      intros Hin; repeat destruct Hin as [Hin|Hin]; done. }
  assert (("r2", "s2", step_s2) ∈ store) as Hin
    by (apply elem_of_cons; right; apply elem_of_cons; by left).
  split; [done |]. split; [done |].
  exact (get_finds_stored_step RAll store "r2" "s2" step_s2 None Hwf Hnodup Hin).
Defined.

Lemma get_ignores_other_files_witness :
  plain_id "r2" = true ∧ plain_id "s2" = true
  ∧ "r2" ≠ "" ∧ "r1-s9" ≠ "r2-s2"
  ∧ WorldLocal.get RAll [("r1-s1", step_s1); ("r1-s9", step_ab); ("r2-s2", step_s2)]
      (Some "r2") "s2" None
    = WorldLocal.get RAll steps_dir (Some "r2") "s2" None.
Proof.
  split; [reflexivity |]. split; [reflexivity |].
  split; [done |]. split; [done |].
  apply (get_ignores_other_files RAll [("r1-s1", step_s1)] [("r2-s2", step_s2)]
           "r1-s9" step_ab "r2" "s2" None); done.
Defined.

(** A cursor that ends in a high surrogate with no low one after it is
    sent with U+FFFD in its place. *)
Example listEndpoint_lone_surrogate :
  VercelSteps.listEndpoint RAll
    {| VercelSteps.runId := "r1";
       VercelSteps.pagination :=
         Some {| cursor := Some (String "a" (String "237" (String "160" (String "128" ""))));
                 limit := None; sortOrder := None |};
       VercelSteps.resolveData := None |}
  = "/v2/runs/r1/steps?cursor=a%EF%BF%BD&remoteRefBehavior=resolve".
Proof. vm_compute. reflexivity. Qed.

(** A surrogate pair is sent as the UTF-8 of its code point, here
    U+1F600. *)
Example listEndpoint_surrogate_pair :
  VercelSteps.listEndpoint RAll
    {| VercelSteps.runId := "r1";
       VercelSteps.pagination :=
         Some {| cursor := Some (String "237" (String "160" (String "189"
                                (String "237" (String "184" (String "128" ""))))));
                 limit := None; sortOrder := None |};
       VercelSteps.resolveData := None |}
  = "/v2/runs/r1/steps?cursor=%F0%9F%98%80&remoteRefBehavior=resolve".
Proof. vm_compute. reflexivity. Qed.

Lemma accepted_object_error_is_structured_witness :
  let StepSchema :=
    [ ("stepId", WireSchemas.z_string);
      ("input", WireSchemas.z_optional (WireSchemas.z_instanceof Zod.Uint8Array));
      ("error", WireSchemas.z_any) ] in
  let w := wire_with (JObject {["message" := JString "failed"]}) in
  WireSchemas.accepts (WireSchemas.StepWireSchema StepSchema) (JObject w) = true
  ∧ is_object_type (field w "error") = true
  ∧ ∃ r, WorldVercel.deserializeStep w = Ok r
         ∧ is_StructuredError (field r "error") = true.
Proof.
  intros StepSchema w.
  assert (WireSchemas.accepts (WireSchemas.StepWireSchema StepSchema) (JObject w)
          = true) as Haccepts by (vm_compute; reflexivity).
  assert (is_object_type (field w "error") = true) as Hobject
    by (vm_compute; reflexivity).
  split; [done |]. split; [done |].
  exact (accepted_object_error_is_structured StepSchema w (or_introl Haccepts)
           Hobject).
Defined.

End MoreOnSamples.
